(** * A todo list persisted as JSON: model of [src/todo.ts]

    The program keeps an ordered list of tasks in [tasks.json]; every
    command reads the whole file, changes the list in memory and writes the
    whole file back.  The model below follows the source function by
    function.  Strings are sequences of bytes (the UTF-8 form of the text),
    the file is either absent or holds such a string, console output is the
    list of lines passed to [console.log], and pending [setTimeout]
    callbacks are recorded with their delay. *)

From Stdlib Require Import ZArith Ascii.
From Stdlib Require String.
From stdpp Require Import base option list strings pretty.

Local Open Scope Z_scope.

(** ** Characters and string helpers *)

Definition QUOTE : ascii := "034"%char.
Definition BACKSLASH : ascii := "092"%char.
Definition NEWLINE : ascii := "010"%char.

Definition str (c : ascii) : string := String c EmptyString.

Definition code (c : ascii) : N := N_of_ascii c.

(** [`"${s}"`]: the text between two double quotes, no escaping. *)
Definition quoted (s : string) : string := str QUOTE +:+ s +:+ str QUOTE.

(** JavaScript truthiness of a [string | undefined] value. *)
Definition truthy (v : option string) : bool :=
  match v with
  | None => false
  | Some EmptyString => false
  | Some (String _ _) => true
  end.

(** ** Data model *)

(** [interface Task { text: string; reminderTime?: string }] *)
Record Task : Type := mkTask {
  text : string;
  reminderTime : option string
}.

Global Instance Task_eq_dec : EqDecision Task.
Proof. solve_decision. Defined.

(** ** JSON encoding of a task list

    [JSON.stringify(tasks, null, 2)] on a [Task[]]: an empty array is
    printed as two brackets, otherwise one object per element, indented by
    two spaces, members indented by four. *)

Definition hex_digit (n : N) : ascii :=
  match n with
  | 0 => "0" | 1 => "1" | 2 => "2" | 3 => "3" | 4 => "4" | 5 => "5"
  | 6 => "6" | 7 => "7" | 8 => "8" | 9 => "9" | 10 => "a" | 11 => "b"
  | 12 => "c" | 13 => "d" | 14 => "e" | _ => "f"
  end%N%char.

(** QuoteJSONString on one code unit: the quote and the backslash are
    escaped, control characters get their short escape or a four digit
    hexadecimal one, everything else is copied. *)
Definition escape_char (c : ascii) : string :=
  if Ascii.eqb c QUOTE then String BACKSLASH (str QUOTE)
  else if Ascii.eqb c BACKSLASH then String BACKSLASH (str BACKSLASH)
  else if (code c =? 8)%N then String BACKSLASH "b"
  else if (code c =? 9)%N then String BACKSLASH "t"
  else if (code c =? 10)%N then String BACKSLASH "n"
  else if (code c =? 12)%N then String BACKSLASH "f"
  else if (code c =? 13)%N then String BACKSLASH "r"
  else if (code c <? 32)%N then
    String BACKSLASH
      (String "u" (String "0" (String "0"
         (String (hex_digit (code c / 16)) (str (hex_digit (code c mod 16)))))))
  else str c.

Fixpoint escape (s : string) : string :=
  match s with
  | EmptyString => EmptyString
  | String c r => escape_char c +:+ escape r
  end.

Definition JSON_string (s : string) : string :=
  String QUOTE (escape s +:+ str QUOTE).

Definition JSON_member (indent key value : string) : string :=
  indent +:+ JSON_string key +:+ ": " +:+ JSON_string value.

Definition JSON_object (t : Task) : string :=
  "{" +:+ str NEWLINE
  +:+ JSON_member "    " "text" (text t)
  +:+ match reminderTime t with
      | Some r => "," +:+ str NEWLINE +:+ JSON_member "    " "reminderTime" r
      | None => EmptyString
      end
  +:+ str NEWLINE +:+ "  }".

Fixpoint JSON_elements (t : Task) (ts : list Task) : string :=
  match ts with
  | [] => "  " +:+ JSON_object t
  | t' :: ts' => "  " +:+ JSON_object t +:+ "," +:+ str NEWLINE +:+ JSON_elements t' ts'
  end.

Definition JSON_stringify (tasks : list Task) : string :=
  match tasks with
  | [] => "[]"
  | t :: ts => "[" +:+ str NEWLINE +:+ JSON_elements t ts +:+ str NEWLINE +:+ "]"
  end.

(** ** JSON decoding of a task list

    [JSON.parse] restricted to the texts that denote a [Task[]]: an array
    of objects whose members are the strings [text] (required) and
    [reminderTime] (optional), with JSON white space anywhere between
    tokens.  [None] stands for any other content: malformed text, on which
    [JSON.parse] throws, and text denoting a value of another shape, which
    the declared type [Task[]] excludes.  An escape that denotes a
    surrogate code unit has no UTF-8 form and is rejected as well. *)

Definition is_ws (c : ascii) : bool :=
  ((code c =? 32) || (code c =? 9) || (code c =? 10) || (code c =? 13))%N.

Fixpoint skip_ws (s : string) : string :=
  match s with
  | EmptyString => EmptyString
  | String c r => if is_ws c then skip_ws r else s
  end.

Definition hex_value (c : ascii) : option N :=
  let n := code c in
  if ((48 <=? n) && (n <=? 57))%N then Some (n - 48)%N
  else if ((97 <=? n) && (n <=? 102))%N then Some (n - 87)%N
  else if ((65 <=? n) && (n <=? 70))%N then Some (n - 55)%N
  else None.

Definition hex4 (a b c d : ascii) : option N :=
  x ← hex_value a; y ← hex_value b; z ← hex_value c; w ← hex_value d;
  Some (((x * 16 + y) * 16 + z) * 16 + w)%N.

(** The character denoted by a one-letter escape. *)
Definition unescape (e : ascii) : option ascii :=
  match code e with
  | 34%N => Some QUOTE
  | 92%N => Some BACKSLASH
  | 47%N => Some "/"%char
  | 98%N => Some "008"%char
  | 102%N => Some "012"%char
  | 110%N => Some "010"%char
  | 114%N => Some "013"%char
  | 116%N => Some "009"%char
  | _ => None
  end.

(** UTF-8 form of a code unit given by a [\u] escape. *)
Definition utf8 (n : N) : option string :=
  if (n <? 128)%N then Some (str (ascii_of_N n))
  else if (n <? 2048)%N then
    Some (String (ascii_of_N (192 + n / 64)) (str (ascii_of_N (128 + n mod 64))))
  else if ((55296 <=? n) && (n <? 57344))%N then None
  else
    Some (String (ascii_of_N (224 + n / 4096))
            (String (ascii_of_N (128 + (n / 64) mod 64))
               (str (ascii_of_N (128 + n mod 64))))).

Definition prepend (p : string) (r : option (string * string)) : option (string * string) :=
  '(s, rest) ← r; Some (p +:+ s, rest).

(** The characters of a string literal after its opening quote, up to
    and including the closing quote; returns the decoded string and the
    remaining input. *)
Fixpoint parse_chars (s : string) : option (string * string) :=
  match s with
  | EmptyString => None
  | String c r =>
    if Ascii.eqb c QUOTE then Some (EmptyString, r)
    else if Ascii.eqb c BACKSLASH then
      match r with
      | EmptyString => None
      | String e r1 =>
        match unescape e with
        | Some c' => prepend (str c') (parse_chars r1)
        | None =>
          if Ascii.eqb e "u" then
            match r1 with
            | String h1 (String h2 (String h3 (String h4 r2))) =>
              match hex4 h1 h2 h3 h4 ≫= utf8 with
              | Some p => prepend p (parse_chars r2)
              | None => None
              end
            | _ => None
            end
          else None
        end
      end
    else if (code c <? 32)%N then None
    else prepend (str c) (parse_chars r)
  end.

Definition parse_string (s : string) : option (string * string) :=
  match s with
  | String c r => if Ascii.eqb c QUOTE then parse_chars r else None
  | EmptyString => None
  end.

(** The character [c], possibly after white space. *)
Definition expect (c : ascii) (s : string) : option string :=
  match skip_ws s with
  | String c' r => if Ascii.eqb c' c then Some r else None
  | EmptyString => None
  end.

Definition parse_member (s : string) : option (string * string * string) :=
  '(k, s1) ← parse_string (skip_ws s);
  s2 ← expect ":" s1;
  '(v, s3) ← parse_string (skip_ws s2);
  Some (k, v, s3).

(** The two fields of a task while its object is being read; a repeated
    key overrides the earlier one, as in [JSON.parse]. *)
Definition set_member (k v : string) (o : option string * option string)
  : option (option string * option string) :=
  if String.eqb k "text" then Some (Some v, o.2)
  else if String.eqb k "reminderTime" then Some (o.1, Some v)
  else None.

Fixpoint parse_members (fuel : nat) (s : string) (o : option string * option string)
  : option (option string * option string * string) :=
  match fuel with
  | O => None
  | S fuel' =>
    '(k, v, s1) ← parse_member s;
    o' ← set_member k v o;
    match skip_ws s1 with
    | String c r =>
      if Ascii.eqb c "," then parse_members fuel' r o'
      else if Ascii.eqb c "}" then Some (o', r)
      else None
    | EmptyString => None
    end
  end.

Definition parse_object (fuel : nat) (s : string) : option (Task * string) :=
  s1 ← expect "{" s;
  '(o, s2) ← parse_members fuel s1 (None, None);
  t ← o.1;
  Some (mkTask t o.2, s2).

Fixpoint parse_elements (fuel mfuel : nat) (s : string) : option (list Task * string) :=
  match fuel with
  | O => None
  | S fuel' =>
    '(t, s1) ← parse_object mfuel s;
    match skip_ws s1 with
    | String c r =>
      if Ascii.eqb c "," then
        '(ts, s2) ← parse_elements fuel' mfuel r; Some (t :: ts, s2)
      else if Ascii.eqb c "]" then Some ([t], r)
      else None
    | EmptyString => None
    end
  end.

Definition at_end (s : string) : bool :=
  match skip_ws s with EmptyString => true | String _ _ => false end.

Definition JSON_parse_fuel (fuel : nat) (s : string) : option (list Task) :=
  s1 ← expect "[" s;
  match skip_ws s1 with
  | String c r =>
    if Ascii.eqb c "]" then (if at_end r then Some [] else None)
    else
      '(ts, r') ← parse_elements fuel fuel s1;
      if at_end r' then Some ts else None
  | EmptyString => None
  end.

(** Every element and every member takes at least one character, so the
    length of the text is enough fuel. *)
Definition JSON_parse (s : string) : option (list Task) :=
  JSON_parse_fuel (String.length s) s.

(** ** JavaScript numbers, as far as the program uses them

    The index given to [removeTask] comes from [parseInt] and the time
    value of a [Date] from parsing a string: each is an integer or [NaN].
    Every comparison with [NaN] is false. *)

Inductive number : Type :=
| Num (z : Z)
| NaN.

Definition num_sub (a b : number) : number :=
  match a, b with
  | Num x, Num y => Num (x - y)
  | _, _ => NaN
  end.

Definition num_lt (a b : number) : bool :=
  match a, b with
  | Num x, Num y => x <? y
  | _, _ => false
  end.

Definition num_gt (a b : number) : bool := num_lt b a.

(** ToIntegerOrInfinity: [NaN] becomes 0. *)
Definition to_integer (a : number) : Z :=
  match a with Num z => z | NaN => 0 end.

(** [Array.prototype.splice(start, deleteCount)]: the removed elements and
    the array that is left.  A negative start counts from the end, a start
    beyond the end is the end. *)
Definition splice {A} (l : list A) (start : number) (deleteCount : nat) : list A * list A :=
  let len := Z.of_nat (length l) in
  let rel := to_integer start in
  let actualStart := Z.to_nat (if rel <? 0 then Z.max (len + rel) 0 else Z.min rel len) in
  let actualDeleteCount := Nat.min deleteCount (length l - actualStart) in
  (take actualDeleteCount (drop actualStart l),
   take actualStart l ++ drop (actualStart + actualDeleteCount) l).

(** ** The world the program runs in *)

(** What reaches standard output: a [console.log] line or text written
    with [process.stdout.write]. *)
Inductive Output : Type :=
| Line (s : string)
| Raw (s : string).

(** A pending [setTimeout] callback of [scheduleReminder]; the closure
    captures the task.  [delay] is the time in milliseconds after which
    Node runs the callback. *)
Record Timer : Type := mkTimer {
  delay : Z;
  subject : Task
}.

(** The longest delay Node arms a timer with, 2^31 - 1 milliseconds. *)
Definition TIMEOUT_MAX : Z := 2147483647.

(** The delay a timer is armed with when [d] is asked for: a delay
    outside 1 .. [TIMEOUT_MAX] is replaced by 1.  (For a delay above
    [TIMEOUT_MAX] Node also writes a warning to standard error, which is
    not part of the world.) *)
Definition timeout (d : Z) : Z :=
  if (1 <=? d) && (d <=? TIMEOUT_MAX) then d else 1.

(** A desktop notification requested from [node-notifier]. *)
Record Notification : Type := mkNotification {
  title : string;
  message : string;
  sound : bool;
  wait : bool
}.

Record World : Type := mkWorld {
  file : option string;          (* content of tasks.json, if it exists *)
  clock : Z;                     (* current time in milliseconds *)
  stdout : list Output;          (* oldest first *)
  timers : list Timer;           (* in the order they were set *)
  notifications : list Notification
}.

Inductive Error : Type :=
| SyntaxError    (* thrown by JSON.parse *)
| TypeError      (* property read on undefined *)
| ENOENT.        (* readFileSync on a missing file *)

Inductive Outcome (A : Type) : Type :=
| Done (a : A) (w : World)
| Thrown (e : Error) (w : World).
Arguments Done {A} a w.
Arguments Thrown {A} e w.

(** The world an outcome leaves behind, whether or not it threw. *)
Definition world_of {A} (o : Outcome A) : World :=
  match o with Done _ w => w | Thrown _ w => w end.

Definition M (A : Type) : Type := World → Outcome A.

Definition ret {A} (a : A) : M A := λ w, Done a w.

Definition bind {A B} (m : M A) (k : A → M B) : M B :=
  λ w, match m w with
       | Done a w' => k a w'
       | Thrown e w' => Thrown e w'
       end.

Definition throw {A} (e : Error) : M A := λ w, Thrown e w.

Notation "'do' x <- m ; k" := (bind m (λ x, k))
  (at level 10, x name, m at level 100, k at level 200,
   format "'[v' 'do'  x  <-  m ; '/' k ']'").
Notation "'run' m ; k" := (bind m (λ _, k))
  (at level 10, m at level 100, k at level 200,
   format "'[v' 'run'  m ; '/' k ']'").

Definition existsSync : M bool := λ w, Done (bool_decide (is_Some (file w))) w.

Definition readFileSync : M string :=
  λ w, match file w with
       | Some data => Done data w
       | None => Thrown ENOENT w
       end.

Definition writeFileSync (data : string) : M unit :=
  λ w, Done tt (mkWorld (Some data) (clock w) (stdout w) (timers w) (notifications w)).

Definition console_log (s : string) : M unit :=
  λ w, Done tt (mkWorld (file w) (clock w) (stdout w ++ [Line s]) (timers w) (notifications w)).

Definition stdout_write (s : string) : M unit :=
  λ w, Done tt (mkWorld (file w) (clock w) (stdout w ++ [Raw s]) (timers w) (notifications w)).

Definition Date_now : M Z := λ w, Done (clock w) w.

Definition setTimeout (t : Task) (d : Z) : M unit :=
  λ w, Done tt (mkWorld (file w) (clock w) (stdout w) (timers w ++ [mkTimer (timeout d) t])
                  (notifications w)).

Definition notify (n : Notification) : M unit :=
  λ w, Done tt (mkWorld (file w) (clock w) (stdout w) (timers w) (notifications w ++ [n])).

(** [array.forEach((x, index) => f(x, index))] *)
Fixpoint forEach_from {A} (i : nat) (f : A → nat → M unit) (l : list A) : M unit :=
  match l with
  | [] => ret tt
  | x :: l' => run f x i; forEach_from (S i) f l'
  end.

Definition forEach {A} (f : A → nat → M unit) (l : list A) : M unit := forEach_from 0 f l.

(** ** Libraries the program calls

    Date parsing and formatting are done by [chrono-node] and by the
    built-in [Date]; the model takes them as given.  A time value is an
    integer number of milliseconds. *)
Class Platform : Type := {
  (* chrono.parseDate(input) at the given reference instant; None for null *)
  chrono_parseDate : Z → string → option Z;
  (* new Date(input).getTime() *)
  Date_getTime : string → number;
  (* date.toISOString() of a valid date *)
  toISOString : Z → string;
  (* date.toLocaleString(), also defined on an invalid date *)
  toLocaleString : number → string
}.

(** ** [parseInt(s, 10)]

    Leading white space is skipped, then an optional sign, then the
    longest run of decimal digits; no digit gives [NaN].  The result is
    kept as an exact integer: the program only compares it with the length
    of the task list, where rounding to a double makes no difference. *)

Definition is_space1 (c : ascii) : bool :=
  ((code c =? 9) || (code c =? 10) || (code c =? 11) || (code c =? 12)
   || (code c =? 13) || (code c =? 32))%N.

(** U+00A0 *)
Definition is_space2 (a b : ascii) : bool :=
  ((code a =? 194) && (code b =? 160))%N.

(** U+1680, U+2000..U+200A, U+2028, U+2029, U+202F, U+205F, U+3000, U+FEFF *)
Definition is_space3 (a b c : ascii) : bool :=
  (((code a =? 225) && (code b =? 154) && (code c =? 128))
   || ((code a =? 226) && (code b =? 128)
       && (((128 <=? code c) && (code c <=? 138))
           || (code c =? 168) || (code c =? 169) || (code c =? 175)))
   || ((code a =? 226) && (code b =? 129) && (code c =? 159))
   || ((code a =? 227) && (code b =? 128) && (code c =? 128))
   || ((code a =? 239) && (code b =? 187) && (code c =? 191)))%N.

Fixpoint trimStart (s : string) : string :=
  match s with
  | EmptyString => EmptyString
  | String a r =>
    if is_space1 a then trimStart r
    else match r with
         | String b r2 =>
           if is_space2 a b then trimStart r2
           else match r2 with
                | String c r3 => if is_space3 a b c then trimStart r3 else s
                | EmptyString => s
                end
         | EmptyString => s
         end
  end.

Definition digit_value (c : ascii) : option Z :=
  if ((48 <=? code c) && (code c <=? 57))%N then Some (Z.of_N (code c) - 48) else None.

(** Value of the longest prefix of decimal digits, starting from [acc]. *)
Fixpoint digits (acc : Z) (s : string) : Z :=
  match s with
  | EmptyString => acc
  | String c r =>
    match digit_value c with
    | Some d => digits (acc * 10 + d) r
    | None => acc
    end
  end.

Definition unsigned_digits (s : string) : number :=
  match s with
  | EmptyString => NaN
  | String c _ =>
    match digit_value c with
    | Some _ => Num (digits 0 s)
    | None => NaN
    end
  end.

Definition num_neg (a : number) : number :=
  match a with Num z => Num (- z) | NaN => NaN end.

Definition parseInt (s : string) : number :=
  match trimStart s with
  | EmptyString => NaN
  | String c r =>
    if Ascii.eqb c "-" then num_neg (unsigned_digits r)
    else if Ascii.eqb c "+" then unsigned_digits r
    else unsigned_digits (String c r)
  end.

(** ** The program *)

Section Program.
Context `{Platform}.

(** [JSON.parse(data)] at type [Task[]]. *)
Definition JSON_parse_tasks (data : string) : M (list Task) :=
  match JSON_parse data with
  | Some tasks => ret tasks
  | None => throw SyntaxError
  end.

Definition readTasks : M (list Task) :=
  do present <- existsSync;
  if negb present then ret []
  else
    do data <- readFileSync;
    JSON_parse_tasks data.

Definition saveTasks (tasks : list Task) : M unit :=
  writeFileSync (JSON_stringify tasks).

(** [chrono.parseDate(input)]; the reference instant is the current time. *)
Definition chrono_parse (input : string) : M (option Z) :=
  λ w, Done (chrono_parseDate (clock w) input) w.

Definition warning_line (input : string) : string :=
  "⚠️ Could not parse reminder time: " +:+ quoted input.

Definition parseReminder (input : option string) : M (option string) :=
  if negb (truthy input) then ret None
  else
    let input := default EmptyString input in
    do parsed <- chrono_parse input;
    match parsed with
    | Some d => ret (Some (toISOString d))
    | None =>
      match Date_getTime input with
      | Num t => ret (Some (toISOString t))
      | NaN =>
        run console_log (warning_line input);
        ret None
      end
    end.

(** The callback given to [setTimeout]. *)
Definition reminderCallback (task : Task) : M unit :=
  run console_log (str NEWLINE +:+ "⏰ Reminder: " +:+ quoted (text task));
  run notify (mkNotification "Todo Reminder" (text task) true false);
  stdout_write "todo> ".

Definition scheduleReminder (task : Task) : M unit :=
  if negb (truthy (reminderTime task)) then ret tt
  else
    let reminderDate := Date_getTime (default EmptyString (reminderTime task)) in
    do now <- Date_now;
    let delay := num_sub reminderDate (Num now) in
    if num_gt delay (Num 0) then setTimeout task (to_integer delay)
    else ret tt.

Definition added_line (taskText : string) : string :=
  "✅ Task " +:+ quoted taskText +:+ " added!".

Definition reminder_set_line (reminderTime : string) : string :=
  "⏰ Reminder set for " +:+ toLocaleString (Date_getTime reminderTime).

Definition addTask (taskText : string) (reminderInput : option string) : M unit :=
  do tasks <- readTasks;
  do reminderTime <- parseReminder reminderInput;
  let newTask := mkTask taskText None in
  do newTask <-
    (if truthy reminderTime then
       let newTask := mkTask (text newTask) reminderTime in
       run scheduleReminder newTask;
       ret newTask
     else ret newTask);
  let tasks := tasks ++ [newTask] in
  run saveTasks tasks;
  run console_log (added_line taskText);
  if truthy reminderTime then
    console_log (reminder_set_line (default EmptyString reminderTime))
  else ret tt.

Definition reminder_suffix (task : Task) : string :=
  if truthy (reminderTime task) then
    " (Reminder: "
    +:+ toLocaleString (Date_getTime (default EmptyString (reminderTime task)))
    +:+ ")"
  else EmptyString.

Definition item_line (task : Task) (index : nat) : string :=
  pretty (index + 1)%nat +:+ ". " +:+ text task +:+ reminder_suffix task.

Definition listTasks : M unit :=
  do tasks <- readTasks;
  if (length tasks =? 0)%nat then console_log "No tasks available."
  else
    run console_log "📋 Your tasks:";
    forEach (λ task index, console_log (item_line task index)) tasks.

Definition removed_line (taskText : string) : string :=
  "🗑️ Task " +:+ quoted taskText +:+ " removed!".

Definition removeTask (index : number) : M unit :=
  do tasks <- readTasks;
  if num_lt index (Num 1) || num_gt index (Num (Z.of_nat (length tasks))) then
    console_log "Invalid task index!"
  else
    let '(removedTask, tasks) := splice tasks (num_sub index (Num 1)) 1 in
    run saveTasks tasks;
    match removedTask !! 0%nat with
    | Some t => console_log (removed_line (text t))
    | None => throw TypeError
    end.

Definition rescheduleAllReminders : M unit :=
  do tasks <- readTasks;
  forEach (λ task _, scheduleReminder task) tasks.

(** The synchronous part of [interactiveCLI]: the banner and the first
    prompt.  The line handler it registers runs later, from the event
    loop; it is [onLine] below. *)
Definition interactiveCLI : M unit :=
  run console_log "📌 Todo CLI started (type 'help' for commands)";
  stdout_write "todo> ".

Definition usage : M unit :=
  run console_log "Usage:";
  run console_log "  npx ts-node src/todo.ts add <task> [reminderTime]";
  run console_log "  npx ts-node src/todo.ts list";
  run console_log "  npx ts-node src/todo.ts remove <index>";
  console_log "  npx ts-node src/todo.ts            # interactive mode".

(** [args] is [process.argv.slice(2)]. *)
Definition cli (args : list string) : M unit :=
  match args with
  | [] => interactiveCLI
  | command :: rest =>
    if String.eqb command "add" && truthy (rest !! 0%nat) then
      let taskText := default EmptyString (rest !! 0%nat) in
      let reminderInput := String.concat " " (drop 1 rest) in
      addTask taskText (Some reminderInput)
    else if String.eqb command "list" then listTasks
    else if String.eqb command "remove" && truthy (rest !! 0%nat) then
      let index := parseInt (default EmptyString (rest !! 0%nat)) in
      removeTask index
    else usage
  end.

(** The module body: [rescheduleAllReminders(); cli();] *)
Definition main (args : list string) : M unit :=
  run rescheduleAllReminders;
  cli args.

End Program.

(** ** The interactive session

    [line.trim().split(" ")] and the handler that [interactiveCLI]
    registers for the lines read from standard input. *)

Definition is_blank (s : string) : bool :=
  match trimStart s with EmptyString => true | String _ _ => false end.

(** [s.trimEnd()]: the longest suffix made of white space is cut. *)
Fixpoint trimEnd (s : string) : string :=
  match s with
  | EmptyString => EmptyString
  | String c r => if is_blank s then EmptyString else String c (trimEnd r)
  end.

Definition trim (s : string) : string := trimEnd (trimStart s).

(** [s.split(" ")]: a new piece starts after every single space. *)
Fixpoint split_space (s : string) : list string :=
  match s with
  | EmptyString => [EmptyString]
  | String c r =>
    if Ascii.eqb c " " then EmptyString :: split_space r
    else match split_space r with
         | piece :: pieces => String c piece :: pieces
         | [] => [String c EmptyString]
         end
  end.

(** What happens after a line was handled: the prompt is shown again, or
    the process has ended with [process.exit]. *)
Inductive After : Type :=
| Continue
| Exited (code : Z).

Section Interactive.
Context `{Platform}.

Definition help : M unit :=
  run console_log "Commands:";
  run console_log "  add <task> [reminderTime]   Add a task with optional reminder";
  run console_log "  list                        List all tasks";
  run console_log "  remove <index>              Remove a task";
  console_log "  exit                        Quit the app".

(** The callback of [rl.on("line", ...)]. *)
Definition onLine (line : string) : M After :=
  let args := split_space (trim line) in
  let command := default EmptyString (args !! 0%nat) in
  do after <-
    (if String.eqb command "add" && truthy (args !! 1%nat) then
       let taskText := default EmptyString (args !! 1%nat) in
       let reminderInput := String.concat " " (drop 2 args) in
       run addTask taskText (Some reminderInput);
       ret Continue
     else if String.eqb command "list" then
       run listTasks;
       ret Continue
     else if String.eqb command "remove" && truthy (args !! 1%nat) then
       let index := parseInt (default EmptyString (args !! 1%nat)) in
       run removeTask index;
       ret Continue
     else if String.eqb command "help" then
       run help;
       ret Continue
     else if String.eqb command "exit" || String.eqb command "quit" then
       run console_log "👋 Exiting todo app...";
       ret (Exited 0)
     else
       run console_log "Unknown command. Type 'help' for usage.";
       ret Continue);
  match after with
  | Continue => run stdout_write "todo> "; ret Continue
  | Exited code => ret (Exited code)
  end.

(** The lines of a session, handled one after the other until one of them
    ends the process. *)
Fixpoint session (lines : list string) : M After :=
  match lines with
  | [] => ret Continue
  | line :: lines' =>
    do after <- onLine line;
    match after with
    | Continue => session lines'
    | Exited code => ret (Exited code)
    end
  end.

End Interactive.

(** ** The earlier variant of the program

    The variant without reminders keeps the tasks as plain strings: the
    file is a JSON array of strings.  It has no start-up pass and no
    interactive mode. *)
Module Legacy.

Fixpoint JSON_elements (t : string) (ts : list string) : string :=
  match ts with
  | [] => "  " +:+ JSON_string t
  | t' :: ts' => "  " +:+ JSON_string t +:+ "," +:+ str NEWLINE +:+ JSON_elements t' ts'
  end.

(** [JSON.stringify(tasks, null, 2)] on a [string[]]. *)
Definition JSON_stringify (tasks : list string) : string :=
  match tasks with
  | [] => "[]"
  | t :: ts => "[" +:+ str NEWLINE +:+ JSON_elements t ts +:+ str NEWLINE +:+ "]"
  end.

Fixpoint parse_elements (fuel : nat) (s : string) : option (list string * string) :=
  match fuel with
  | O => None
  | S fuel' =>
    '(t, s1) ← parse_string (skip_ws s);
    match skip_ws s1 with
    | String c r =>
      if Ascii.eqb c "," then
        '(ts, s2) ← parse_elements fuel' r; Some (t :: ts, s2)
      else if Ascii.eqb c "]" then Some ([t], r)
      else None
    | EmptyString => None
    end
  end.

Definition JSON_parse_fuel (fuel : nat) (s : string) : option (list string) :=
  s1 ← expect "[" s;
  match skip_ws s1 with
  | String c r =>
    if Ascii.eqb c "]" then (if at_end r then Some [] else None)
    else
      '(ts, r') ← parse_elements fuel s1;
      if at_end r' then Some ts else None
  | EmptyString => None
  end.

(** [JSON.parse] restricted to the texts that denote a [string[]];
    every element takes at least one character, so the length of the text
    is enough fuel. *)
Definition JSON_parse (s : string) : option (list string) :=
  JSON_parse_fuel (String.length s) s.

Definition JSON_parse_tasks (data : string) : M (list string) :=
  match JSON_parse data with
  | Some tasks => ret tasks
  | None => throw SyntaxError
  end.

Definition readTasks : M (list string) :=
  do present <- existsSync;
  if negb present then ret []
  else
    do data <- readFileSync;
    JSON_parse_tasks data.

Definition saveTasks (tasks : list string) : M unit :=
  writeFileSync (JSON_stringify tasks).

Definition added_line (task : string) : string :=
  "Task " +:+ quoted task +:+ " added!".

Definition addTask (task : string) : M unit :=
  do tasks <- readTasks;
  let tasks := tasks ++ [task] in
  run saveTasks tasks;
  console_log (added_line task).

Definition item_line (task : string) (index : nat) : string :=
  pretty (index + 1)%nat +:+ ". " +:+ task.

Definition listTasks : M unit :=
  do tasks <- readTasks;
  if (length tasks =? 0)%nat then console_log "No tasks available."
  else
    run console_log "Your tasks:";
    forEach (λ task index, console_log (item_line task index)) tasks.

(** [`${x}`] for a string that may be [undefined]. *)
Definition template (x : option string) : string := default "undefined" x.

Definition removed_line (removed : option string) : string :=
  "Task " +:+ quoted (template removed) +:+ " removed!".

Definition removeTask (index : number) : M unit :=
  do tasks <- readTasks;
  if num_lt index (Num 1) || num_gt index (Num (Z.of_nat (length tasks))) then
    console_log "Invalid task index!"
  else
    let '(removedTask, tasks) := splice tasks (num_sub index (Num 1)) 1 in
    run saveTasks tasks;
    console_log (removed_line (removedTask !! 0%nat)).

Definition usage : M unit :=
  run console_log "Usage:";
  run console_log "  npx ts-node src/todo.ts add <task>       Add a new task";
  run console_log "  npx ts-node src/todo.ts list             List all tasks";
  console_log "  npx ts-node src/todo.ts remove <index>   Remove a task by its index".

(** [args] is [process.argv.slice(2)]; [args[0]] may be [undefined]. *)
Definition cli (args : list string) : M unit :=
  let command := args !! 0%nat in
  if bool_decide (command = Some "add") && truthy (args !! 1%nat) then
    addTask (default EmptyString (args !! 1%nat))
  else if bool_decide (command = Some "list") then listTasks
  else if bool_decide (command = Some "remove") && truthy (args !! 1%nat) then
    let index := parseInt (default EmptyString (args !! 1%nat)) in
    removeTask index
  else usage.

(** The lines [listTasks] prints for a task list. *)
Definition listing (tasks : list string) : list Output :=
  match tasks with
  | [] => [Line "No tasks available."]
  | _ :: _ => Line "Your tasks:" :: imap (λ index task, Line (item_line task index)) tasks
  end.

End Legacy.

(** ** A platform to run the model on

    Dates are printed and read in the format of [toISOString] for the
    years 0000 to 9999 (proleptic Gregorian calendar, UTC); the phrase
    parser knows three phrases.  It is used to evaluate the model on
    concrete commands. *)
Module Sample.

Definition ms_per_day : Z := 86400000.

(** Year, month and day of a day number counted from 1970-01-01. *)
Definition civil_from_days (z : Z) : Z * Z * Z :=
  let z := z + 719468 in
  let era := z / 146097 in
  let doe := z - era * 146097 in
  let yoe := (doe - doe / 1460 + doe / 36524 - doe / 146096) / 365 in
  let doy := doe - (365 * yoe + yoe / 4 - yoe / 100) in
  let mp := (5 * doy + 2) / 153 in
  let d := doy - (153 * mp + 2) / 5 + 1 in
  let m := if mp <? 10 then mp + 3 else mp - 9 in
  let y := yoe + era * 400 in
  (if m <=? 2 then y + 1 else y, m, d).

Definition days_from_civil (y m d : Z) : Z :=
  let y := if m <=? 2 then y - 1 else y in
  let era := y / 400 in
  let yoe := y - era * 400 in
  let doy := (153 * (if 2 <? m then m - 3 else m + 9) + 2) / 5 + d - 1 in
  let doe := yoe * 365 + yoe / 4 - yoe / 100 + doy in
  era * 146097 + doe - 719468.

Definition pad2 (n : Z) : string :=
  if n <? 10 then "0" +:+ pretty n else pretty n.

Definition pad3 (n : Z) : string :=
  if n <? 100 then "0" +:+ pad2 n else pretty n.

Definition pad4 (n : Z) : string :=
  if n <? 1000 then "0" +:+ pad3 n else pretty n.

Definition iso (t : Z) : string :=
  let '(y, m, d) := civil_from_days (t / ms_per_day) in
  let r := t mod ms_per_day in
  pad4 y +:+ "-" +:+ pad2 m +:+ "-" +:+ pad2 d +:+ "T"
  +:+ pad2 (r / 3600000) +:+ ":" +:+ pad2 (r / 60000 mod 60) +:+ ":"
  +:+ pad2 (r / 1000 mod 60) +:+ "." +:+ pad3 (r mod 1000) +:+ "Z".

(** The digits of [s] from position [n], [m] of them. *)
Definition field (n m : nat) (s : string) : option Z :=
  let f := String.substring n m s in
  if bool_decide (String.length f = m ∧ Forall (λ c, is_Some (digit_value c)) (String.list_ascii_of_string f))
  then Some (digits 0 f) else None.

Definition is_at (n : nat) (c : ascii) (s : string) : bool :=
  bool_decide (String.get n s = Some c).

Definition time_of_iso (s : string) : number :=
  if (String.length s =? 24)%nat
     && is_at 4 "-" s && is_at 7 "-" s && is_at 10 "T" s && is_at 13 ":" s
     && is_at 16 ":" s && is_at 19 "." s && is_at 23 "Z" s
  then
    match field 0 4 s, field 5 2 s, field 8 2 s, field 11 2 s,
          field 14 2 s, field 17 2 s, field 20 3 s with
    | Some y, Some m, Some d, Some hh, Some mm, Some ss, Some ms =>
      Num (days_from_civil y m d * ms_per_day
           + hh * 3600000 + mm * 60000 + ss * 1000 + ms)
    | _, _, _, _, _, _, _ => NaN
    end
  else NaN.

Definition phrase (ref : Z) (s : string) : option Z :=
  if String.eqb s "now" then Some ref
  else if String.eqb s "tomorrow" then Some (ref + ms_per_day)
  else if String.eqb s "yesterday" then Some (ref - ms_per_day)
  else None.

Definition locale (t : number) : string :=
  match t with
  | Num z => iso z
  | NaN => "Invalid Date"
  end.

Definition platform : Platform :=
  {| chrono_parseDate := phrase;
     Date_getTime := time_of_iso;
     toISOString := iso;
     toLocaleString := locale |}.

(** 2026-11-02T12:00:00.000Z, no file, nothing printed or pending. *)
Definition fresh : World :=
  mkWorld None 1793620800000 [] [] [].

Definition with_tasks (tasks : list Task) : World :=
  mkWorld (Some (JSON_stringify tasks)) 1793620800000 [] [] [].

Definition two : list Task := [mkTask "Call mom" None; mkTask "Buy milk" None].

End Sample.

(** ** Stores to run the further properties on *)
Module Cases.

(** One reminder a day before and one a day after [Sample.fresh]. *)
Definition dated : list Task :=
  [mkTask "Pay rent" (Some "2026-11-01T12:00:00.000Z");
   mkTask "Call mom" (Some "2026-11-03T12:00:00.000Z")].

(** A file that holds a single space. *)
Definition blank : World :=
  mkWorld (Some " ") 1793620800000 [] [] [].

(** A store of the earlier variant. *)
Definition legacy_store (tasks : list string) : World :=
  mkWorld (Some (Legacy.JSON_stringify tasks)) 1793620800000 [] [] [].

End Cases.

(** ** Vocabulary for the properties *)

(** What the content of the file stands for: no file is the empty list. *)
Definition decode (f : option string) : option (list Task) :=
  match f with
  | None => Some []
  | Some data => JSON_parse data
  end.

(** The world after [lines] were printed. *)
Definition printed (lines : list Output) (w : World) : World :=
  mkWorld (file w) (clock w) (stdout w ++ lines) (timers w) (notifications w).

(** The world after [data] was written to the file. *)
Definition written (data : string) (w : World) : World :=
  mkWorld (Some data) (clock w) (stdout w) (timers w) (notifications w).


(** Commands that change the task list. *)
Inductive Command : Type :=
| Add (taskText : string) (reminderInput : option string)
| Remove (index : number).

Section Vocabulary.
Context `{Platform}.

(** The lines [listTasks] prints for a task list. *)
Definition listing (tasks : list Task) : list Output :=
  match tasks with
  | [] => [Line "No tasks available."]
  | _ :: _ => Line "📋 Your tasks:" :: imap (λ index task, Line (item_line task index)) tasks
  end.

Definition exec (c : Command) : M unit :=
  match c with
  | Add taskText reminderInput => addTask taskText reminderInput
  | Remove index => removeTask index
  end.

(** Commands one after the other; a throw ends the run. *)
Fixpoint exec_all (cs : list Command) : M unit :=
  match cs with
  | [] => ret tt
  | c :: cs' => run exec c; exec_all cs'
  end.

(** The reminder of [task], if it has one that denotes a time, is not
    after [now]. *)
Definition not_future (now : Z) (task : Task) : Prop :=
  ∀ s t, reminderTime task = Some s → Date_getTime s = Num t → t - now ≤ 0.

(** Neither parse strategy recognises [input] at time [now]. *)
Definition unparsable (now : Z) (input : string) : Prop :=
  chrono_parseDate now input = None ∧ Date_getTime input = NaN.
End Vocabulary.

(** The world after [ts] were added to the pending timers. *)
Definition scheduled (ts : list Timer) (w : World) : World :=
  mkWorld (file w) (clock w) (stdout w) (timers w ++ ts) (notifications w).

Section MoreVocabulary.
Context `{Platform}.

(** The time value of the reminder of [task]. *)
Definition due (task : Task) : number :=
  Date_getTime (default EmptyString (reminderTime task)).

(** [task] has a reminder that is after [now]. *)
Definition in_future (now : Z) (task : Task) : bool :=
  truthy (reminderTime task) && num_gt (num_sub (due task) (Num now)) (Num 0).

(** The command line is one of [add <task> ...], [list], [remove <index> ...]. *)
Definition recognised (args : list string) : bool :=
  let command := default EmptyString (args !! 0%nat) in
  String.eqb command "add" && truthy (args !! 1%nat)
  || String.eqb command "list"
  || String.eqb command "remove" && truthy (args !! 1%nat).

End MoreVocabulary.



(** [s] contains a space. *)
Fixpoint has_space (s : string) : bool :=
  match s with
  | EmptyString => false
  | String c r => Ascii.eqb c " " || has_space r
  end.

(** From [w] to [w'] output was only appended, timers were only added
    and no notification was requested. *)
Definition grows (w w' : World) : Prop :=
  stdout w `prefix_of` stdout w'
  ∧ timers w `prefix_of` timers w'
  ∧ notifications w' = notifications w.

(** * Properties *)

(** ** The JSON codec *)

Section Codec.
Local Arguments String.append : simpl nomatch.

Lemma app_String c s t : String c s +:+ t = String c (s +:+ t).
Proof. reflexivity. Qed.

Lemma app_assoc_s (a b c : string) : (a +:+ b) +:+ c = a +:+ (b +:+ c).
Proof. induction a as [|x a IH]; simpl; [reflexivity | by rewrite IH]. Qed.

Lemma length_app_s (a b : string) :
  String.length (a +:+ b) = (String.length a + String.length b)%nat.
Proof. induction a as [|x a IH]; simpl; [reflexivity | by rewrite IH]. Qed.

(** *** The fuel is never the reason for a rejection *)

Lemma skip_ws_length s : (String.length (skip_ws s) ≤ String.length s)%nat.
Proof.
  induction s as [|c s IH]; [done|].
  cbn [skip_ws]. destruct (is_ws c); simpl; lia.
Qed.

Lemma prepend_Some p o v r :
  prepend p o = Some (v, r) → ∃ v', o = Some (v', r).
Proof. destruct o as [[v' r']|]; [|done]. intros [= _ <-]. eauto. Qed.

Lemma parse_chars_shorter_le n : ∀ s v r,
  (String.length s ≤ n)%nat → parse_chars s = Some (v, r) →
  (String.length r < String.length s)%nat.
Proof.
  induction n as [|n IH]; intros s v r Hn Hp.
  { destruct s; [discriminate | simpl in Hn; lia]. }
  destruct s as [|c s]; [discriminate|]. cbn [parse_chars] in Hp.
  simpl in Hn. cbn [String.length].
  destruct (Ascii.eqb c QUOTE); [injection Hp as _ <-; lia|].
  destruct (Ascii.eqb c BACKSLASH).
  - destruct s as [|e s1]; [discriminate|]. simpl in Hn. cbn [String.length].
    destruct (unescape e).
    + apply prepend_Some in Hp as [v' Hp]. apply IH in Hp; lia.
    + destruct (Ascii.eqb e "u"); [|discriminate].
      destruct s1 as [|h1 [|h2 [|h3 [|h4 r2]]]]; try discriminate.
      destruct (hex4 h1 h2 h3 h4 ≫= utf8); [|discriminate].
      apply prepend_Some in Hp as [v' Hp]. simpl in Hn.
      apply IH in Hp; simpl; lia.
  - destruct (code c <? 32)%N; [discriminate|].
    apply prepend_Some in Hp as [v' Hp]. apply IH in Hp; lia.
Qed.

Lemma parse_string_shorter s v r :
  parse_string s = Some (v, r) → (String.length r < String.length s)%nat.
Proof.
  destruct s as [|c s]; [discriminate|]. cbn [parse_string].
  destruct (Ascii.eqb c QUOTE); [|discriminate].
  intros Hp. apply (parse_chars_shorter_le (String.length s)) in Hp; simpl; lia.
Qed.

Lemma expect_shorter c s r :
  expect c s = Some r → (String.length r < String.length s)%nat.
Proof.
  unfold expect. pose proof (skip_ws_length s) as Hs.
  destruct (skip_ws s) as [|c' r']; [discriminate|].
  destruct (Ascii.eqb c' c); [|discriminate].
  intros [= <-]. simpl in Hs. lia.
Qed.

Lemma parse_member_shorter s k v r :
  parse_member s = Some (k, v, r) → (String.length r < String.length s)%nat.
Proof.
  unfold parse_member. pose proof (skip_ws_length s) as Hs.
  destruct (parse_string (skip_ws s)) as [[k' s1]|] eqn:E1; [|discriminate].
  apply parse_string_shorter in E1. cbn [mbind option_bind].
  destruct (expect ":" s1) as [s2|] eqn:E2; [|discriminate].
  apply expect_shorter in E2. cbn [mbind option_bind].
  pose proof (skip_ws_length s2) as Hs2.
  destruct (parse_string (skip_ws s2)) as [[v' s3]|] eqn:E3; [|discriminate].
  apply parse_string_shorter in E3. cbn [mbind option_bind].
  intros [= _ _ <-]. lia.
Qed.

Lemma parse_members_fuel fuel : ∀ fuel' s o,
  (String.length s < fuel)%nat → (String.length s < fuel')%nat →
  parse_members fuel s o = parse_members fuel' s o.
Proof.
  induction fuel as [|fuel IH]; intros fuel' s o Hf Hf'; [lia|].
  destruct fuel' as [|fuel']; [lia|]. cbn [parse_members].
  destruct (parse_member s) as [[[k v] s1]|] eqn:E; [|reflexivity].
  apply parse_member_shorter in E. cbn [mbind option_bind].
  destruct (set_member k v o) as [o'|]; [|reflexivity]. cbn [mbind option_bind].
  pose proof (skip_ws_length s1) as Hs.
  destruct (skip_ws s1) as [|c r]; [reflexivity|]. simpl in Hs.
  destruct (Ascii.eqb c ","); [|reflexivity].
  apply IH; lia.
Qed.

Lemma parse_members_shorter fuel : ∀ s o o' r,
  parse_members fuel s o = Some (o', r) → (String.length r < String.length s)%nat.
Proof.
  induction fuel as [|fuel IH]; intros s o o' r; [discriminate|].
  cbn [parse_members].
  destruct (parse_member s) as [[[k v] s1]|] eqn:E; [|discriminate].
  apply parse_member_shorter in E. cbn [mbind option_bind].
  destruct (set_member k v o) as [o1|]; [|discriminate]. cbn [mbind option_bind].
  pose proof (skip_ws_length s1) as Hs.
  destruct (skip_ws s1) as [|c r1]; [discriminate|]. simpl in Hs.
  destruct (Ascii.eqb c ",").
  - intros Hp. apply IH in Hp. lia.
  - destruct (Ascii.eqb c "}"); [|discriminate]. intros [= _ <-]. lia.
Qed.

Lemma parse_object_fuel fuel fuel' s :
  (String.length s < fuel)%nat → (String.length s < fuel')%nat →
  parse_object fuel s = parse_object fuel' s.
Proof.
  intros Hf Hf'. unfold parse_object.
  destruct (expect "{" s) as [s1|] eqn:E; [|reflexivity].
  apply expect_shorter in E. cbn [mbind option_bind].
  rewrite (parse_members_fuel fuel fuel') by lia. reflexivity.
Qed.

Lemma parse_object_shorter fuel s t r :
  parse_object fuel s = Some (t, r) → (String.length r < String.length s)%nat.
Proof.
  unfold parse_object.
  destruct (expect "{" s) as [s1|] eqn:E; [|discriminate].
  apply expect_shorter in E. cbn [mbind option_bind].
  destruct (parse_members fuel s1 (None, None)) as [[o s2]|] eqn:E2; [|discriminate].
  apply parse_members_shorter in E2. cbn [mbind option_bind].
  destruct (o.1); [|discriminate]. intros [= _ <-]. lia.
Qed.

Lemma parse_elements_fuel fuel : ∀ fuel' mfuel mfuel' s,
  (String.length s < fuel)%nat → (String.length s < fuel')%nat →
  (String.length s < mfuel)%nat → (String.length s < mfuel')%nat →
  parse_elements fuel mfuel s = parse_elements fuel' mfuel' s.
Proof.
  induction fuel as [|fuel IH]; intros fuel' mfuel mfuel' s Hf Hf' Hm Hm'; [lia|].
  destruct fuel' as [|fuel']; [lia|]. cbn [parse_elements].
  rewrite (parse_object_fuel mfuel mfuel') by lia.
  destruct (parse_object mfuel' s) as [[t s1]|] eqn:E; [|reflexivity].
  apply parse_object_shorter in E. cbn [mbind option_bind].
  pose proof (skip_ws_length s1) as Hs.
  destruct (skip_ws s1) as [|c r]; [reflexivity|]. simpl in Hs.
  destruct (Ascii.eqb c ","); [|reflexivity].
  rewrite (IH fuel' mfuel mfuel') by lia. reflexivity.
Qed.

(** More fuel than the length of the text changes nothing. *)
Lemma JSON_parse_fuel_enough fuel s :
  (String.length s ≤ fuel)%nat → JSON_parse_fuel fuel s = JSON_parse s.
Proof.
  intros Hf. unfold JSON_parse, JSON_parse_fuel.
  destruct (expect "[" s) as [s1|] eqn:E; [|reflexivity].
  apply expect_shorter in E. cbn [mbind option_bind].
  destruct (skip_ws s1) as [|c r]; [reflexivity|].
  destruct (Ascii.eqb c "]"); [reflexivity|].
  rewrite (parse_elements_fuel fuel (String.length s) fuel (String.length s)) by lia.
  reflexivity.
Qed.

(** *** Round trip *)

(** Reading back one escaped character gives the character. *)
Lemma parse_chars_escape_char c rest :
  parse_chars (escape_char c +:+ rest) = prepend (str c) (parse_chars rest).
Proof. destruct c as [[] [] [] [] [] [] [] []]; reflexivity. Qed.

Lemma parse_chars_escape s rest :
  parse_chars (escape s +:+ String QUOTE rest) = Some (s, rest).
Proof.
  induction s as [|c s IH]; [reflexivity|].
  cbn [escape]. rewrite app_assoc_s, parse_chars_escape_char, IH. reflexivity.
Qed.

Lemma parse_string_JSON_string v rest :
  parse_string (JSON_string v +:+ rest) = Some (v, rest).
Proof.
  unfold JSON_string. rewrite app_String. cbn [parse_string].
  replace (Ascii.eqb QUOTE QUOTE) with true by reflexivity.
  rewrite app_assoc_s. apply parse_chars_escape.
Qed.

Lemma skip_ws_JSON_string v rest :
  skip_ws (JSON_string v +:+ rest) = JSON_string v +:+ rest.
Proof. reflexivity. Qed.

Lemma parse_member_JSON_member k v rest :
  parse_member (str NEWLINE +:+ JSON_member "    " k v +:+ rest) = Some (k, v, rest).
Proof.
  unfold parse_member, JSON_member.
  rewrite !app_assoc_s.
  change (skip_ws (str NEWLINE +:+ "    " +:+ JSON_string k +:+ ": " +:+ JSON_string v +:+ rest))
    with (JSON_string k +:+ ": " +:+ JSON_string v +:+ rest).
  rewrite parse_string_JSON_string. cbn [mbind option_bind].
  change (expect ":" (": " +:+ JSON_string v +:+ rest))
    with (Some (" " +:+ JSON_string v +:+ rest)).
  cbn [mbind option_bind].
  change (skip_ws (" " +:+ JSON_string v +:+ rest)) with (JSON_string v +:+ rest).
  rewrite parse_string_JSON_string. reflexivity.
Qed.

Lemma parse_object_JSON_object fuel t rest :
  parse_object (S (S fuel)) (str NEWLINE +:+ "  " +:+ JSON_object t +:+ rest)
  = Some (t, rest).
Proof.
  destruct t as [txt rem]. unfold parse_object, JSON_object.
  cbn [text reminderTime]. rewrite !app_assoc_s.
  change (expect "{" (str NEWLINE +:+ "  " +:+ "{" +:+ ?x)) with (Some x).
  cbn [mbind option_bind parse_members].
  rewrite parse_member_JSON_member. cbn [mbind option_bind].
  change (set_member "text" txt (None, None)) with (Some (Some txt, @None string)).
  cbn [mbind option_bind].
  destruct rem as [r|].
  - rewrite !app_assoc_s.
    change (skip_ws ("," +:+ ?x)) with (String ","%char x).
    cbn [Ascii.eqb Bool.eqb].
    rewrite parse_member_JSON_member. cbn [mbind option_bind].
    reflexivity.
  - reflexivity.
Qed.

Lemma parse_elements_JSON_elements ts : ∀ t fuel mfuel rest,
  (length ts < fuel)%nat → (2 ≤ mfuel)%nat →
  parse_elements fuel mfuel
    (str NEWLINE +:+ JSON_elements t ts +:+ str NEWLINE +:+ "]" +:+ rest)
  = Some (t :: ts, rest).
Proof.
  induction ts as [|t' ts IH]; intros t fuel mfuel rest Hfuel Hm;
    destruct fuel as [|fuel]; try (simpl in Hfuel; lia);
    destruct mfuel as [|[|mfuel]]; try lia;
    cbn [parse_elements JSON_elements]; rewrite ?app_assoc_s;
    rewrite parse_object_JSON_object; cbn [mbind option_bind].
  - reflexivity.
  - change (skip_ws ("," +:+ ?x)) with (String ","%char x).
    cbn [Ascii.eqb Bool.eqb].
    rewrite IH by (simpl in Hfuel; lia). reflexivity.
Qed.

Lemma JSON_elements_head t ts :
  ∃ x, JSON_elements t ts = "  {" +:+ x.
Proof. destruct ts; unfold JSON_elements, JSON_object; rewrite ?app_assoc_s; eauto. Qed.

Lemma length_JSON_elements t ts :
  (length ts < String.length (JSON_elements t ts))%nat.
Proof.
  revert t. induction ts as [|t' ts IH]; intros t; cbn [JSON_elements].
  - rewrite length_app_s. simpl. lia.
  - rewrite !length_app_s. specialize (IH t'). simpl. lia.
Qed.

(** Decoding the encoding of a task list gives the task list back. *)
Lemma JSON_parse_stringify tasks :
  JSON_parse (JSON_stringify tasks) = Some tasks.
Proof.
  destruct tasks as [|t ts]; [reflexivity|].
  unfold JSON_parse, JSON_parse_fuel.
  pose proof (length_JSON_elements t ts) as Hlen.
  assert (Hfuel : (length ts < String.length (JSON_stringify (t :: ts)))%nat).
  { unfold JSON_stringify. rewrite !length_app_s. simpl. lia. }
  assert (Hm : (2 ≤ String.length (JSON_stringify (t :: ts)))%nat).
  { unfold JSON_stringify. rewrite !length_app_s. simpl. lia. }
  revert Hfuel Hm. generalize (String.length (JSON_stringify (t :: ts))) as n.
  intros n Hfuel Hm. unfold JSON_stringify. rewrite ?app_assoc_s.
  change (expect "[" ("[" +:+ ?x)) with (Some x). cbn [mbind option_bind].
  destruct (JSON_elements_head t ts) as [x Hx].
  rewrite Hx at 1. rewrite ?app_assoc_s.
  change (skip_ws (str NEWLINE +:+ "  {" +:+ ?y)) with (String "{"%char y).
  cbn [Ascii.eqb Bool.eqb].
  replace (parse_elements n n _) with (Some (t :: ts, EmptyString)); [reflexivity|].
  symmetry.
  change (str NEWLINE +:+ "]") with (str NEWLINE +:+ "]" +:+ EmptyString).
  by apply parse_elements_JSON_elements.
Qed.
End Codec.

(** ** The store *)

Section Store.
Context `{Platform}.

Lemma Done_inj {A} (a a' : A) (w w' : World) :
  Done a w = Done a' w' → a = a' ∧ w = w'.
Proof. intros Heq. by injection Heq. Qed.

Lemma readTasks_decode w :
  readTasks w = match decode (file w) with
                | Some tasks => Done tasks w
                | None => Thrown SyntaxError w
                end.
Proof.
  unfold readTasks, bind, existsSync, readFileSync, JSON_parse_tasks, decode.
  destruct (file w) as [data|] eqn:Hf; simpl; rewrite ?Hf; [|reflexivity].
  destruct (JSON_parse data); reflexivity.
Qed.

(** Reading leaves the world as it is, also when decoding fails. *)
Lemma readTasks_world w : world_of (readTasks w) = w.
Proof. rewrite readTasks_decode. destruct (decode (file w)); reflexivity. Qed.

Lemma readTasks_Done_inv w tasks w' :
  readTasks w = Done tasks w' → w' = w ∧ decode (file w) = Some tasks.
Proof.
  rewrite readTasks_decode. destruct (decode (file w)); intros [= <- <-] || intros [=]; auto.
Qed.

(** The result of a read depends on the file only. *)
Lemma readTasks_file w w' tasks :
  file w' = file w → readTasks w = Done tasks w → readTasks w' = Done tasks w'.
Proof.
  intros Hf Hr. apply readTasks_Done_inv in Hr as [_ Hd].
  rewrite readTasks_decode, Hf, Hd. reflexivity.
Qed.

Lemma readTasks_saved w tasks :
  file w = Some (JSON_stringify tasks) → readTasks w = Done tasks w.
Proof.
  intros Hf. rewrite readTasks_decode, Hf. simpl.
  rewrite JSON_parse_stringify. reflexivity.
Qed.

Lemma JSON_stringify_inj : Inj (=) (=) JSON_stringify.
Proof.
  intros a b Hab. apply (f_equal JSON_parse) in Hab.
  rewrite !JSON_parse_stringify in Hab. congruence.
Qed.

Lemma saveTasks_written tasks w :
  saveTasks tasks w = Done tt (written (JSON_stringify tasks) w).
Proof. reflexivity. Qed.

Lemma console_log_printed s w : console_log s w = Done tt (printed [Line s] w).
Proof. reflexivity. Qed.

Lemma printed_printed a b w : printed b (printed a w) = printed (a ++ b) w.
Proof. unfold printed; simpl. by rewrite <- (assoc_L (++)). Qed.

Lemma printed_nil w : printed [] w = w.
Proof. destruct w; unfold printed; simpl. by rewrite app_nil_r. Qed.

Lemma forEach_from_log (f : Task → nat → string) tasks : ∀ i w,
  forEach_from i (λ task index, console_log (f task index)) tasks w
  = Done tt (printed (imap (λ k task, Line (f task (i + k)%nat)) tasks) w).
Proof.
  induction tasks as [|t tasks IH]; intros i w; cbn [forEach_from].
  - unfold ret. by rewrite printed_nil.
  - unfold bind. rewrite console_log_printed, IH, printed_printed.
    rewrite imap_cons. cbn [app]. rewrite Nat.add_0_r.
    do 3 f_equal. apply imap_ext. intros k x _. simpl. f_equal. f_equal. lia.
Qed.

Lemma listTasks_listing w tasks :
  readTasks w = Done tasks w → listTasks w = Done tt (printed (listing tasks) w).
Proof.
  intros Hr. unfold listTasks, bind. rewrite Hr.
  destruct tasks as [|t tasks]; [reflexivity|].
  cbn [length Nat.eqb]. rewrite console_log_printed.
  unfold forEach. rewrite forEach_from_log, printed_printed. reflexivity.
Qed.
End Store.

(** ** Reminders *)

Section Reminders.
Context `{Platform}.

Lemma parseReminder_falsy input w :
  truthy input = false → parseReminder input w = Done None w.
Proof. intros Hf. unfold parseReminder. rewrite Hf. reflexivity. Qed.

Lemma parseReminder_chrono s d w :
  truthy (Some s) = true → chrono_parseDate (clock w) s = Some d →
  parseReminder (Some s) w = Done (Some (toISOString d)) w.
Proof.
  intros Ht Hc. unfold parseReminder, bind, chrono_parse. rewrite Ht. simpl.
  rewrite Hc. reflexivity.
Qed.

Lemma parseReminder_date s t w :
  truthy (Some s) = true → chrono_parseDate (clock w) s = None →
  Date_getTime s = Num t →
  parseReminder (Some s) w = Done (Some (toISOString t)) w.
Proof.
  intros Ht Hc Hd. unfold parseReminder, bind, chrono_parse. rewrite Ht. simpl.
  rewrite Hc, Hd. reflexivity.
Qed.

Lemma parseReminder_unparsable s w :
  truthy (Some s) = true → unparsable (clock w) s →
  parseReminder (Some s) w = Done None (printed [Line (warning_line s)] w).
Proof.
  intros Ht [Hc Hd]. unfold parseReminder, bind, chrono_parse. rewrite Ht. simpl.
  rewrite Hc, Hd. reflexivity.
Qed.

(** [parseReminder] never throws; it can only print. *)
Lemma parseReminder_total input w :
  ∃ r lines, parseReminder input w = Done r (printed lines w).
Proof.
  destruct (truthy input) eqn:Ht.
  - destruct input as [s|]; [|discriminate].
    destruct (chrono_parseDate (clock w) s) as [d|] eqn:Hc.
    + exists (Some (toISOString d)), []. rewrite printed_nil. by apply parseReminder_chrono.
    + destruct (Date_getTime s) as [t|] eqn:Hd.
      * exists (Some (toISOString t)), []. rewrite printed_nil. by apply parseReminder_date.
      * exists None, [Line (warning_line s)]. by apply parseReminder_unparsable.
  - exists None, []. rewrite printed_nil. by apply parseReminder_falsy.
Qed.

(** The world after a timer was set. *)
Lemma scheduleReminder_cases task w :
  scheduleReminder task w = Done tt w
  ∨ ∃ s t, reminderTime task = Some s ∧ Date_getTime s = Num t ∧ 0 < t - clock w
      ∧ scheduleReminder task w
        = Done tt (mkWorld (file w) (clock w) (stdout w)
                     (timers w ++ [mkTimer (timeout (t - clock w)) task])
                     (notifications w)).
Proof.
  unfold scheduleReminder.
  destruct (truthy (reminderTime task)) eqn:Ht; [|by left].
  destruct (reminderTime task) as [s|] eqn:Hs; [|discriminate]. simpl.
  unfold bind, Date_now.
  destruct (Date_getTime s) as [t|] eqn:Hd; simpl; [|by left].
  unfold num_gt. simpl. destruct (0 <? t - clock w) eqn:Hlt; [|by left].
  right. exists s, t. split_and!; [done | done | by apply Z.ltb_lt | reflexivity].
Qed.

Lemma scheduleReminder_not_future task w :
  not_future (clock w) task → scheduleReminder task w = Done tt w.
Proof.
  intros Hnf. destruct (scheduleReminder_cases task w) as [?|(s & t & Hs & Hd & Hlt & _)]; [done|].
  specialize (Hnf s t Hs Hd). lia.
Qed.

(** Scheduling never throws and touches nothing but the timers. *)
Lemma scheduleReminder_frame task w :
  ∃ w', scheduleReminder task w = Done tt w'
        ∧ file w' = file w ∧ clock w' = clock w ∧ stdout w' = stdout w
        ∧ notifications w' = notifications w.
Proof.
  destruct (scheduleReminder_cases task w) as [->|(s & t & _ & _ & _ & ->)]; eauto 10.
Qed.
End Reminders.

(** ** Adding and removing *)

Section Commands.
Context `{Platform}.

(** The steps of [addTask] on a store that decodes. *)
Lemma addTask_run taskText reminderInput w tasks :
  readTasks w = Done tasks w →
  ∃ rt lines w2,
    parseReminder reminderInput w = Done rt (printed lines w)
    ∧ (if truthy rt then scheduleReminder (mkTask taskText rt) (printed lines w)
       else Done tt (printed lines w)) = Done tt w2
    ∧ addTask taskText reminderInput w
      = Done tt
          (printed
             (Line (added_line taskText)
              :: if truthy rt then [Line (reminder_set_line (default EmptyString rt))] else [])
             (written
                (JSON_stringify (tasks ++ [mkTask taskText (if truthy rt then rt else None)]))
                w2)).
Proof.
  intros Hr.
  destruct (parseReminder_total reminderInput w) as (rt & lines & Hp).
  exists rt, lines. unfold addTask, bind. rewrite Hr, Hp.
  destruct (truthy rt) eqn:Ht.
  - destruct (scheduleReminder_frame (mkTask taskText rt) (printed lines w))
      as (w2 & Hs & _).
    exists w2. split_and!; [done | done |].
    cbn [text]. rewrite Hs. unfold ret. rewrite saveTasks_written.
    rewrite !console_log_printed, printed_printed. reflexivity.
  - exists (printed lines w). split_and!; [done | done |].
    unfold ret. rewrite saveTasks_written, console_log_printed. reflexivity.
Qed.

Lemma splice_one {A} (l : list A) (k : nat) (x : A) :
  l !! k = Some x →
  splice l (Num (Z.of_nat k)) 1 = ([x], delete k l).
Proof.
  intros Hk. pose proof (lookup_lt_Some _ _ _ Hk) as Hlt.
  unfold splice. cbn [to_integer].
  replace (Z.of_nat k <? 0) with false by (symmetry; apply Z.ltb_ge; lia).
  rewrite Z.min_l by lia. rewrite Nat2Z.id.
  replace (Nat.min 1 (length l - k)) with 1%nat by lia.
  rewrite (drop_S _ _ _ Hk). cbn [take].
  rewrite delete_take_drop. f_equal. f_equal. f_equal. lia.
Qed.

Lemma splice_NaN {A} (x : A) (l : list A) :
  splice (x :: l) NaN 1 = ([x], l).
Proof. unfold splice. simpl. rewrite take_0, drop_0. reflexivity. Qed.

Lemma removeTask_out_of_range (i : Z) w tasks :
  readTasks w = Done tasks w →
  i < 1 ∨ Z.of_nat (length tasks) < i →
  removeTask (Num i) w = Done tt (printed [Line "Invalid task index!"] w).
Proof.
  intros Hr Hi. unfold removeTask, bind. rewrite Hr.
  unfold num_gt, num_lt.
  replace ((i <? 1) || (Z.of_nat (length tasks) <? i)) with true; [reflexivity|].
  symmetry. apply orb_true_iff. rewrite !Z.ltb_lt. done.
Qed.

Lemma removeTask_in_range (i : Z) w tasks t :
  readTasks w = Done tasks w →
  1 ≤ i → tasks !! Z.to_nat (i - 1) = Some t →
  removeTask (Num i) w
  = Done tt (printed [Line (removed_line (text t))]
               (written (JSON_stringify (delete (Z.to_nat (i - 1)) tasks)) w)).
Proof.
  intros Hr Hi Ht. pose proof (lookup_lt_Some _ _ _ Ht) as Hlt.
  unfold removeTask, bind. rewrite Hr.
  unfold num_gt, num_lt.
  replace ((i <? 1) || (Z.of_nat (length tasks) <? i)) with false.
  2:{ symmetry. apply orb_false_iff. rewrite !Z.ltb_ge. lia. }
  cbn [num_sub].
  pose proof (splice_one _ _ _ Ht) as Hs. rewrite Z2Nat.id in Hs by lia.
  rewrite Hs, saveTasks_written. cbn [lookup list_lookup].
  rewrite console_log_printed. reflexivity.
Qed.

Lemma removeTask_NaN_cons w t tasks :
  readTasks w = Done (t :: tasks) w →
  removeTask NaN w
  = Done tt (printed [Line (removed_line (text t))] (written (JSON_stringify tasks) w)).
Proof.
  intros Hr. unfold removeTask, bind. rewrite Hr.
  cbn [num_lt num_gt orb num_sub]. rewrite splice_NaN.
  rewrite saveTasks_written. reflexivity.
Qed.

Lemma removeTask_NaN_nil w :
  readTasks w = Done [] w →
  removeTask NaN w = Thrown TypeError (written (JSON_stringify []) w).
Proof. intros Hr. unfold removeTask, bind. rewrite Hr. reflexivity. Qed.
End Commands.

(** ** The claims about the store and the list *)

Section Claims.
Context `{Platform}.

Lemma listing_snoc tasks t :
  last (listing (tasks ++ [t])) = Some (Line (item_line t (length tasks)))
  ∧ length (listing (tasks ++ [t])) = S (S (length tasks)).
Proof.
  unfold listing. destruct (tasks ++ [t]) as [|x l] eqn:Hl.
  { by destruct tasks. }
  rewrite <- Hl. split.
  - rewrite imap_app. cbn [imap]. rewrite Nat.add_0_r.
    rewrite app_comm_cons. apply last_snoc.
  - cbn [length]. rewrite length_imap, length_app. simpl. lia.
Qed.

(** C1: on a store that holds [tasks], [addTask T r] succeeds, the file
    then holds [tasks] followed by one new task whose text is [T], and
    [listTasks] afterwards prints a header and one line per task, the last
    of which is the number [length tasks + 1], a dot, [T] and the
    reminder note of the new task; that note is empty when no reminder
    was given.  The command [add T] with a non-empty [T] and no further
    word is [addTask] with the empty reminder text. *)
Theorem add_then_list (w : World) (tasks : list Task) (T : string) (r : option string) :
  readTasks w = Done tasks w →
  ∃ t w1 shown,
    addTask T r w = Done tt w1
    ∧ text t = T
    ∧ file w1 = Some (JSON_stringify (tasks ++ [t]))
    ∧ readTasks w1 = Done (tasks ++ [t]) w1
    ∧ listTasks w1 = Done tt (printed shown w1)
    ∧ length shown = S (length tasks + 1)
    ∧ last shown
      = Some (Line (pretty (length tasks + 1)%nat +:+ ". " +:+ T +:+ reminder_suffix t))
    ∧ (truthy r = false → reminder_suffix t = EmptyString)
    ∧ (truthy (Some T) = true → cli ["add"; T] w = addTask T (Some EmptyString) w).
Proof.
  intros Hr.
  destruct (addTask_run T r w tasks Hr) as (rt & lines & w2 & Hp & Hs & Ha).
  set (t := mkTask T (if truthy rt then rt else None)) in *.
  eexists t, _, (listing (tasks ++ [t])).
  assert (Hread : ∀ ls d w0, readTasks (printed ls (written (JSON_stringify d) w0))
                             = Done d (printed ls (written (JSON_stringify d) w0))).
  { intros. by apply readTasks_saved. }
  split_and!; [exact Ha | done | done | apply Hread | | | | |].
  - apply listTasks_listing, Hread.
  - destruct (listing_snoc tasks t) as [_ ->]. lia.
  - destruct (listing_snoc tasks t) as [-> _]. reflexivity.
  - intros Hf. rewrite (parseReminder_falsy r w Hf) in Hp.
    apply Done_inj in Hp as [<- _]. reflexivity.
  - intros HT. unfold cli.
    change (String.eqb "add" "add") with true.
    change ([T] !! 0%nat) with (Some T). rewrite HT. reflexivity.
Qed.


Lemma readTasks_cases w :
  (∃ tasks, readTasks w = Done tasks w) ∨ readTasks w = Thrown SyntaxError w.
Proof. rewrite readTasks_decode. destruct (decode (file w)); eauto. Qed.




(** C3: on a store that holds [tasks], [removeTask] with an integer below
    1 or above the number of tasks prints the line "Invalid task index!"
    and nothing else, and leaves the file as it was. *)
Theorem remove_out_of_range (w : World) (tasks : list Task) (i : Z) :
  readTasks w = Done tasks w →
  i < 1 ∨ Z.of_nat (length tasks) < i →
  ∃ w',
    removeTask (Num i) w = Done tt w'
    ∧ file w' = file w
    ∧ readTasks w' = Done tasks w'
    ∧ stdout w' = stdout w ++ [Line "Invalid task index!"].
Proof.
  intros Hr Hi. eexists. split; [by apply (removeTask_out_of_range i w tasks)|].
  split_and!; [done | by apply (readTasks_file w) | done].
Qed.


(** C5: when the file does not exist, [readTasks] returns the empty list
    and throws nothing; that is also what it returns once the empty list
    was saved, and [listTasks] reports that there are no tasks. *)
Theorem read_absent_file (w : World) :
  file w = None →
  readTasks w = Done [] w
  ∧ (run saveTasks []; readTasks) w = Done [] (written (JSON_stringify []) w)
  ∧ listTasks w = Done tt (printed [Line "No tasks available."] w).
Proof.
  intros Hf.
  assert (Hr : readTasks w = Done [] w) by (rewrite readTasks_decode, Hf; reflexivity).
  split_and!; [done | reflexivity | by apply (listTasks_listing w [])].
Qed.

(** C9: [listTasks] leaves the file as it is, whether or not it can be
    decoded, so it stands for the same task list before and after. *)
Theorem list_keeps_file (w : World) :
  file (world_of (listTasks w)) = file w
  ∧ decode (file (world_of (listTasks w))) = decode (file w).
Proof.
  assert (Hf : file (world_of (listTasks w)) = file w).
  { destruct (readTasks_cases w) as [[tasks Hr]|Hr].
    - rewrite (listTasks_listing w tasks Hr). reflexivity.
    - unfold listTasks, bind. rewrite Hr. reflexivity. }
  split; [done | by rewrite Hf].
Qed.

(** C6: [parseReminder] returns nothing for an absent or empty input;
    otherwise the phrase parser is asked first and its date, if any, is
    the result whatever the [Date] constructor would say; only when the
    phrase parser finds nothing is the time value of [new Date(input)]
    used; when that is [NaN] too the result is nothing.  A result is the
    [toISOString] form of the date. *)
Theorem parseReminder_strategies (input : option string) (w : World) :
  (truthy input = false → parseReminder input w = Done None w)
  ∧ (∀ s, input = Some s → truthy input = true →
       (∀ d, chrono_parseDate (clock w) s = Some d →
             parseReminder input w = Done (Some (toISOString d)) w)
       ∧ (∀ t, chrono_parseDate (clock w) s = None → Date_getTime s = Num t →
             parseReminder input w = Done (Some (toISOString t)) w)
       ∧ (chrono_parseDate (clock w) s = None → Date_getTime s = NaN →
             parseReminder input w
             = Done None
                 (printed [Line ("⚠️ Could not parse reminder time: " +:+ quoted s)] w))).
Proof.
  split; [apply parseReminder_falsy|].
  intros s -> Ht. split_and!.
  - intros d Hc. by apply parseReminder_chrono.
  - intros t Hc Hd. by apply parseReminder_date.
  - intros Hc Hd. by apply parseReminder_unparsable.
Qed.


Lemma not_future_mono now now' task :
  now ≤ now' → not_future now task → not_future now' task.
Proof. intros Hle Hnf s t Hs Hd. specialize (Hnf s t Hs Hd). lia. Qed.

Lemma forEach_scheduleReminder_not_future tasks : ∀ i w,
  Forall (not_future (clock w)) tasks →
  forEach_from i (λ task _, scheduleReminder task) tasks w = Done tt w.
Proof.
  induction tasks as [|t tasks IH]; intros i w Hall; [reflexivity|].
  apply Forall_cons in Hall as [Ht Hall].
  cbn [forEach_from]. unfold bind.
  rewrite (scheduleReminder_not_future t w Ht). by apply IH.
Qed.

(** C8: [scheduleReminder] sets no timer for a task whose reminder is not
    after the current time.  So when the reminder text of an add resolves
    to a time that is not after the current time, the task is saved with
    that [reminderTime] and the add sets no timer and requests no
    notification; the reminder stays in the past as the clock advances;
    and [rescheduleAllReminders] on a store whose reminders are all in the
    past sets no timer either. *)
Theorem past_reminder_not_scheduled :
  (∀ task w, not_future (clock w) task → scheduleReminder task w = Done tt w)
  ∧ (∀ w tasks T s iso t,
       readTasks w = Done tasks w →
       parseReminder (Some s) w = Done (Some iso) w →
       truthy (Some iso) = true →
       Date_getTime iso = Num t →
       t - clock w ≤ 0 →
       ∃ w1,
         addTask T (Some s) w = Done tt w1
         ∧ readTasks w1 = Done (tasks ++ [mkTask T (Some iso)]) w1
         ∧ timers w1 = timers w
         ∧ notifications w1 = notifications w
         ∧ ∀ now', clock w ≤ now' → not_future now' (mkTask T (Some iso)))
  ∧ (∀ w tasks,
       readTasks w = Done tasks w →
       Forall (not_future (clock w)) tasks →
       rescheduleAllReminders w = Done tt w).
Proof.
  split_and!.
  - apply scheduleReminder_not_future.
  - intros w tasks T s iso t Hr Hp Ht Hd Hle.
    assert (Hnf : not_future (clock w) (mkTask T (Some iso))).
    { intros s' t' [= <-] Hd'. rewrite Hd in Hd'. injection Hd' as <-. done. }
    destruct (addTask_run T (Some s) w tasks Hr) as (rt & lines & w2 & Hp' & Hs & Ha).
    rewrite Hp in Hp'. apply Done_inj in Hp' as [<- Hw]. rewrite <- Hw in Hs.
    rewrite Ht in Hs, Ha.
    rewrite (scheduleReminder_not_future _ w Hnf) in Hs. injection Hs as <-.
    eexists. split; [exact Ha|].
    split_and!; [by apply readTasks_saved | done | done |].
    intros now' Hnow. by apply (not_future_mono (clock w)).
  - intros w tasks Hr Hall. unfold rescheduleAllReminders, bind. rewrite Hr.
    by apply forEach_scheduleReminder_not_future.
Qed.

(** C10: the bounds check of [removeTask] is false for [NaN], and on a
    store that holds at least one task [removeTask NaN] removes the first
    task, saves the rest and prints the removal line, not the invalid
    index line; that is what the [remove] command does with an argument
    for which [parseInt] gives [NaN]. *)
Theorem remove_NaN_removes_first (w : World) (t : Task) (tasks : list Task)
    (arg : string) :
  readTasks w = Done (t :: tasks) w →
  truthy (Some arg) = true →
  parseInt arg = NaN →
  num_lt NaN (Num 1) || num_gt NaN (Num (Z.of_nat (length (t :: tasks)))) = false
  ∧ ∃ w1,
      cli ["remove"; arg] w = Done tt w1
      ∧ removeTask NaN w = Done tt w1
      ∧ file w1 = Some (JSON_stringify tasks)
      ∧ readTasks w1 = Done tasks w1
      ∧ stdout w1 = stdout w ++ [Line ("🗑️ Task " +:+ quoted (text t) +:+ " removed!")].
Proof.
  intros Hr Ht Hn. split; [reflexivity|].
  eexists. split_and!; [| by apply removeTask_NaN_cons | done | by apply readTasks_saved | done].
  unfold cli. cbn [lookup list_lookup default]. 
  change (String.eqb "remove" "add") with false.
  change (String.eqb "remove" "list") with false.
  change (String.eqb "remove" "remove") with true.
  cbn [andb]. change (id arg) with arg. rewrite Ht, Hn.
  by apply removeTask_NaN_cons.
Qed.
End Claims.

(** ** Runs on the sample platform *)

Lemma add_then_list_witness :
  ∃ t w1 shown,
    addTask (H := Sample.platform) "Buy milk" (Some EmptyString)
      (Sample.with_tasks [mkTask "Call mom" None]) = Done tt w1
    ∧ text t = "Buy milk"
    ∧ file w1 = Some (JSON_stringify ([mkTask "Call mom" None] ++ [t]))
    ∧ readTasks w1 = Done ([mkTask "Call mom" None] ++ [t]) w1
    ∧ listTasks (H := Sample.platform) w1 = Done tt (printed shown w1)
    ∧ length shown = 3%nat
    ∧ last shown
      = Some (Line (pretty 2%nat +:+ ". " +:+ "Buy milk"
                    +:+ reminder_suffix (H := Sample.platform) t))
    ∧ (truthy (Some EmptyString) = false
       → reminder_suffix (H := Sample.platform) t = EmptyString)
    ∧ (truthy (Some "Buy milk") = true
       → cli (H := Sample.platform) ["add"; "Buy milk"]
           (Sample.with_tasks [mkTask "Call mom" None])
         = addTask (H := Sample.platform) "Buy milk" (Some EmptyString)
             (Sample.with_tasks [mkTask "Call mom" None])).
Proof.
  apply (add_then_list (Sample.with_tasks [mkTask "Call mom" None])
           [mkTask "Call mom" None] "Buy milk" (Some EmptyString)).
  reflexivity.
Defined.

Lemma remove_out_of_range_witness :
  ∃ w',
    removeTask (Num 3) (Sample.with_tasks Sample.two) = Done tt w'
    ∧ file w' = file (Sample.with_tasks Sample.two)
    ∧ readTasks w' = Done Sample.two w'
    ∧ stdout w' = stdout (Sample.with_tasks Sample.two) ++ [Line "Invalid task index!"].
Proof.
  apply (remove_out_of_range (Sample.with_tasks Sample.two) Sample.two 3).
  - reflexivity.
  - right. simpl. lia.
Defined.


Lemma read_absent_file_witness :
  readTasks Sample.fresh = Done [] Sample.fresh
  ∧ (run saveTasks []; readTasks) Sample.fresh
    = Done [] (written (JSON_stringify []) Sample.fresh)
  ∧ listTasks (H := Sample.platform) Sample.fresh
    = Done tt (printed [Line "No tasks available."] Sample.fresh).
Proof. apply (read_absent_file (H := Sample.platform) Sample.fresh). reflexivity. Defined.

Lemma parseReminder_strategies_witness :
  parseReminder (H := Sample.platform) (Some EmptyString) Sample.fresh
  = Done None Sample.fresh
  ∧ parseReminder (H := Sample.platform) (Some "tomorrow") Sample.fresh
    = Done (Some "2026-11-03T12:00:00.000Z") Sample.fresh
  ∧ parseReminder (H := Sample.platform) (Some "2026-12-24T18:00:00.000Z") Sample.fresh
    = Done (Some "2026-12-24T18:00:00.000Z") Sample.fresh
  ∧ parseReminder (H := Sample.platform) (Some "soonish") Sample.fresh
    = Done None
        (printed [Line ("⚠️ Could not parse reminder time: " +:+ quoted "soonish")]
           Sample.fresh).
Proof.
  split_and!.
  - apply (parseReminder_strategies (H := Sample.platform) (Some EmptyString) Sample.fresh).
    reflexivity.
  - destruct (parseReminder_strategies (H := Sample.platform) (Some "tomorrow") Sample.fresh)
      as [_ Hs].
    destruct (Hs "tomorrow" eq_refl eq_refl) as (Hchrono & _ & _).
    apply (Hchrono 1793707200000). reflexivity.
  - destruct (parseReminder_strategies (H := Sample.platform)
                (Some "2026-12-24T18:00:00.000Z") Sample.fresh) as [_ Hs].
    destruct (Hs "2026-12-24T18:00:00.000Z" eq_refl eq_refl) as (_ & Hdate & _).
    apply (Hdate 1798135200000); reflexivity.
  - destruct (parseReminder_strategies (H := Sample.platform) (Some "soonish") Sample.fresh)
      as [_ Hs].
    destruct (Hs "soonish" eq_refl eq_refl) as (_ & _ & Hnone).
    apply Hnone; reflexivity.
Defined.



Lemma past_reminder_not_scheduled_witness :
  ∃ w1,
    addTask (H := Sample.platform) "Pay rent" (Some "yesterday") Sample.fresh = Done tt w1
    ∧ readTasks w1 = Done ([] ++ [mkTask "Pay rent" (Some "2026-11-01T12:00:00.000Z")]) w1
    ∧ timers w1 = timers Sample.fresh
    ∧ notifications w1 = notifications Sample.fresh
    ∧ ∀ now', clock Sample.fresh ≤ now' →
        not_future (H := Sample.platform) now'
          (mkTask "Pay rent" (Some "2026-11-01T12:00:00.000Z")).
Proof.
  destruct (past_reminder_not_scheduled (H := Sample.platform)) as (_ & Hadd & _).
  apply (Hadd Sample.fresh [] "Pay rent" "yesterday" "2026-11-01T12:00:00.000Z"
           1793534400000).
  - reflexivity.
  - vm_compute. reflexivity.
  - reflexivity.
  - vm_compute. reflexivity.
  - simpl. lia.
Defined.

Lemma remove_NaN_removes_first_witness :
  num_lt NaN (Num 1) || num_gt NaN (Num (Z.of_nat (length Sample.two))) = false
  ∧ ∃ w1,
      cli (H := Sample.platform) ["remove"; "abc"] (Sample.with_tasks Sample.two) = Done tt w1
      ∧ removeTask NaN (Sample.with_tasks Sample.two) = Done tt w1
      ∧ file w1 = Some (JSON_stringify [mkTask "Buy milk" None])
      ∧ readTasks w1 = Done [mkTask "Buy milk" None] w1
      ∧ stdout w1
        = stdout (Sample.with_tasks Sample.two)
          ++ [Line ("🗑️ Task " +:+ quoted "Call mom" +:+ " removed!")].
Proof.
  apply (remove_NaN_removes_first (H := Sample.platform) (Sample.with_tasks Sample.two)
           (mkTask "Call mom" None) [mkTask "Buy milk" None] "abc"); reflexivity.
Defined.

(** * Further properties of the program *)

(** ** Reminders that are set *)

Section Scheduling.
Context `{Platform}.

Lemma scheduled_nil w : scheduled [] w = w.
Proof. destruct w; unfold scheduled; simpl. by rewrite app_nil_r. Qed.

Lemma scheduled_scheduled a b w : scheduled b (scheduled a w) = scheduled (a ++ b) w.
Proof. unfold scheduled; simpl. by rewrite <- (assoc_L (++)). Qed.

Lemma scheduleReminder_in_future task w :
  scheduleReminder task w
  = Done tt (if in_future (clock w) task
             then scheduled
                    [mkTimer (timeout (to_integer (num_sub (due task) (Num (clock w)))))
                       task] w
             else w).
Proof.
  unfold scheduleReminder, in_future, due, bind, Date_now.
  destruct (truthy (reminderTime task)); [|reflexivity]. cbn [negb andb].
  destruct (num_gt _ _); reflexivity.
Qed.

Lemma in_future_spec now task :
  in_future now task = true →
  ∃ t, due task = Num t ∧ 0 < t - now
       ∧ to_integer (num_sub (due task) (Num now)) = t - now.
Proof.
  unfold in_future. intros [_ Hgt]%andb_true_iff.
  destruct (due task) as [t|]; [|discriminate].
  exists t. unfold num_gt in Hgt. simpl in Hgt. apply Z.ltb_lt in Hgt. done.
Qed.

Lemma forEach_scheduleReminder tasks : ∀ i w,
  forEach_from i (λ task _, scheduleReminder task) tasks w
  = Done tt
      (scheduled
         ((λ task, mkTimer (timeout (to_integer (num_sub (due task) (Num (clock w)))))
                      task)
          <$> filter (λ task, in_future (clock w) task = true) tasks) w).
Proof.
  induction tasks as [|t tasks IH]; intros i w; cbn [forEach_from].
  { unfold ret. by rewrite scheduled_nil. }
  unfold bind. rewrite scheduleReminder_in_future, filter_cons.
  destruct (in_future (clock w) t) eqn:Hf.
  - rewrite IH. rewrite decide_True by done.
    rewrite scheduled_scheduled. reflexivity.
  - rewrite IH. rewrite decide_False by done. reflexivity.
Qed.

Lemma subject_fmap_mkTimer (d : Task → Z) (l : list Task) :
  subject <$> ((λ task, mkTimer (d task) task) <$> l) = l.
Proof. induction l as [|x l IH]; [done|]. cbn [fmap list_fmap subject]. f_equal. exact IH. Qed.

Lemma timeout_pos d :
  0 < d → timeout d = if d <=? 2147483647 then d else 1.
Proof.
  intros Hd. unfold timeout, TIMEOUT_MAX.
  replace (1 <=? d) with true by (symmetry; apply Z.leb_le; lia). reflexivity.
Qed.

Lemma rescheduleAllReminders_scheduled w tasks :
  readTasks w = Done tasks w →
  rescheduleAllReminders w
  = Done tt
      (scheduled
         ((λ task, mkTimer (timeout (to_integer (num_sub (due task) (Num (clock w)))))
                      task)
          <$> filter (λ task, in_future (clock w) task = true) tasks) w).
Proof.
  intros Hr. unfold rescheduleAllReminders, bind. rewrite Hr.
  apply forEach_scheduleReminder.
Qed.

(** X1: on a store that holds [tasks], the start-up pass never throws and
    changes nothing but the pending timers: it adds one timer for every
    stored task whose reminder is after the current time, in the order of
    the list.  The timer is armed with the time left until the reminder
    when that is at most 2147483647 ms (2^31 - 1, about 24.8 days), and
    with 1 ms when the reminder is further away.  The command given on the
    command line then runs in that world. *)
Theorem reschedule_sets_future_timers (w : World) (tasks : list Task) :
  readTasks w = Done tasks w →
  ∃ new,
    rescheduleAllReminders w = Done tt (scheduled new w)
    ∧ subject <$> new = filter (λ task, in_future (clock w) task = true) tasks
    ∧ Forall (λ tm, ∃ t, due (subject tm) = Num t
                         ∧ 0 < t - clock w
                         ∧ delay tm
                           = if t - clock w <=? 2147483647 then t - clock w else 1) new
    ∧ ∀ args, main args w = cli args (scheduled new w).
Proof.
  intros Hr.
  set (new := (λ task, mkTimer (timeout (to_integer (num_sub (due task) (Num (clock w)))))
                         task)
              <$> filter (λ task, in_future (clock w) task = true) tasks).
  assert (Hre : rescheduleAllReminders w = Done tt (scheduled new w)).
  { by apply rescheduleAllReminders_scheduled. }
  exists new. split_and!; [done | | |].
  - unfold new. apply subject_fmap_mkTimer.
  - unfold new. apply Forall_fmap, Forall_forall. intros task Hin.
    apply list_elem_of_filter in Hin as [Hf _].
    apply in_future_spec in Hf as (t & Hd & Hlt & Hi).
    cbn [delay subject compose]. exists t. rewrite Hi, (timeout_pos _ Hlt). done.
  - intros args. unfold main, bind. rewrite Hre. reflexivity.
Qed.

(** X2: on a store that holds [tasks], an add whose reminder text resolves
    to a time after the current time saves the task with that
    [reminderTime], sets exactly one timer, for that task, and prints the
    confirmation followed by the line that tells when the reminder is due;
    no notification is requested yet.  The timer is armed with the time
    left until the reminder when that is at most 2147483647 ms (2^31 - 1,
    about 24.8 days), and with 1 ms when the reminder is further away. *)
Theorem add_future_reminder (w : World) (tasks : list Task) (T s iso : string) (t : Z) :
  readTasks w = Done tasks w →
  parseReminder (Some s) w = Done (Some iso) w →
  truthy (Some iso) = true →
  Date_getTime iso = Num t →
  0 < t - clock w →
  ∃ w1,
    addTask T (Some s) w = Done tt w1
    ∧ readTasks w1 = Done (tasks ++ [mkTask T (Some iso)]) w1
    ∧ timers w1
      = timers w
        ++ [mkTimer (if t - clock w <=? 2147483647 then t - clock w else 1)
              (mkTask T (Some iso))]
    ∧ stdout w1
      = stdout w ++ [Line ("✅ Task " +:+ quoted T +:+ " added!");
                     Line ("⏰ Reminder set for " +:+ toLocaleString (Num t))]
    ∧ notifications w1 = notifications w.
Proof.
  intros Hr Hp Ht Hd Hlt.
  destruct (addTask_run T (Some s) w tasks Hr) as (rt & lines & w2 & Hp' & Hs & Ha).
  rewrite Hp in Hp'. apply Done_inj in Hp' as [<- Hw]. rewrite <- Hw in Hs.
  rewrite Ht in Hs, Ha.
  rewrite scheduleReminder_in_future in Hs.
  assert (Hf : in_future (clock w) (mkTask T (Some iso)) = true).
  { unfold in_future, due. cbn [reminderTime default from_option id].
    change (id iso) with iso. rewrite Ht, Hd. unfold num_gt. simpl.
    by apply Z.ltb_lt. }
  rewrite Hf in Hs. apply Done_inj in Hs as [_ <-].
  eexists. split; [exact Ha|].
  split_and!; [by apply readTasks_saved | | | done].
  - cbn [printed written scheduled timers]. unfold due.
    cbn [reminderTime default from_option]. change (id iso) with iso.
    rewrite Hd. cbn [num_sub to_integer]. rewrite (timeout_pos _ Hlt). reflexivity.
  - cbn [printed written scheduled stdout]. unfold reminder_set_line.
    cbn [default from_option]. change (id iso) with iso. rewrite Hd. reflexivity.
Qed.
End Scheduling.

(** ** Numbers on the command line *)

Section Numerals.
Local Arguments String.append : simpl nomatch.







End Numerals.

Section NumberedRemoval.
Context `{Platform}.

End NumberedRemoval.

(** ** Commands one after the other *)

Section Composition.
Context `{Platform}.


(** X5: on a store that holds [tasks], a command throws in one case only:
    [removeTask NaN] on the empty list, which throws a [TypeError] after it
    has written the empty list to the file.  Every other add or remove
    returns normally. *)
Theorem only_remove_NaN_on_empty_throws (c : Command) (w : World) (tasks : list Task) :
  readTasks w = Done tasks w →
  (c = Remove NaN ∧ tasks = []
   ∧ exec c w = Thrown TypeError (written (JSON_stringify []) w))
  ∨ (¬ (c = Remove NaN ∧ tasks = []) ∧ ∃ w', exec c w = Done tt w').
Proof.
  intros Hr. destruct c as [T r|[i|]]; cbn [exec].
  - right. split; [by intros [? _]|].
    destruct (addTask_run T r w tasks Hr) as (rt & lines & w2 & _ & _ & ->). eauto.
  - right. split; [by intros [? _]|].
    destruct (decide (i < 1 ∨ Z.of_nat (length tasks) < i)) as [Hi|Hi].
    + rewrite (removeTask_out_of_range i w tasks Hr Hi). eauto.
    + destruct (lookup_lt_is_Some_2 tasks (Z.to_nat (i - 1))) as [t Ht]; [lia|].
      rewrite (removeTask_in_range i w tasks t Hr) by (done || lia). eauto.
  - destruct tasks as [|t tasks].
    + left. split_and!; [done | done | by apply removeTask_NaN_nil].
    + right. split; [by intros [_ ?]|].
      rewrite (removeTask_NaN_cons w t tasks Hr). eauto.
Qed.

(** X6: a command line that is not [add] with a task text, [list] or
    [remove] with an index still goes through the start-up pass: on a
    store that holds [tasks] the program reads the file, sets a timer for
    every stored task whose reminder is after the current time, and then
    prints the five usage lines; the file is not written. *)
Theorem main_usage (args : list string) (w : World) (tasks : list Task) :
  readTasks w = Done tasks w →
  args ≠ [] →
  recognised args = false →
  ∃ new,
    main args w
    = Done tt
        (printed
           [Line "Usage:";
            Line "  npx ts-node src/todo.ts add <task> [reminderTime]";
            Line "  npx ts-node src/todo.ts list";
            Line "  npx ts-node src/todo.ts remove <index>";
            Line "  npx ts-node src/todo.ts            # interactive mode"]
           (scheduled new w))
    ∧ subject <$> new = filter (λ task, in_future (clock w) task = true) tasks.
Proof.
  intros Hr Hne Hrec. destruct args as [|command rest]; [done|].
  unfold recognised in Hrec.
  change (default EmptyString ((command :: rest) !! 0%nat)) with command in Hrec.
  change ((command :: rest) !! 1%nat) with (rest !! 0%nat) in Hrec.
  apply orb_false_iff in Hrec as [Hrec Hrm].
  apply orb_false_iff in Hrec as [Hadd Hlist].
  eexists. split; [|apply subject_fmap_mkTimer].
  unfold main, bind. rewrite (rescheduleAllReminders_scheduled w tasks Hr).
  unfold cli. rewrite Hadd, Hlist, Hrm.
  unfold usage, bind. rewrite !console_log_printed, !printed_printed. reflexivity.
Qed.

(** X7: when the file is empty or holds white space only, the program
    throws a [SyntaxError] at start-up whatever the command line is, before
    anything is printed, written or scheduled. *)
Theorem main_blank_file (args : list string) (w : World) (data : string) :
  file w = Some data →
  at_end data = true →
  main args w = Thrown SyntaxError w.
Proof.
  intros Hf He.
  assert (Hp : JSON_parse data = None).
  { unfold JSON_parse, JSON_parse_fuel, expect. unfold at_end in He.
    destruct (skip_ws data); [reflexivity | discriminate]. }
  assert (Hr : readTasks w = Thrown SyntaxError w).
  { rewrite readTasks_decode, Hf. simpl. by rewrite Hp. }
  unfold main, rescheduleAllReminders, bind. rewrite Hr. reflexivity.
Qed.
End Composition.

(** ** The interactive session *)

Section Session.
Context `{Platform}.
Local Arguments String.append : simpl nomatch.

Lemma split_space_word a :
  has_space a = false → split_space a = [a].
Proof.
  induction a as [|c a IH]; [done|]. cbn [has_space split_space].
  intros [Hc Ha]%orb_false_iff. rewrite Hc, (IH Ha). reflexivity.
Qed.

Lemma split_space_app a rest :
  has_space a = false →
  split_space (a +:+ " " +:+ rest) = a :: split_space rest.
Proof.
  induction a as [|c a IH]; [done|]. cbn [has_space].
  intros [Hc Ha]%orb_false_iff.
  change (String c a +:+ " " +:+ rest) with (String c (a +:+ " " +:+ rest)).
  cbn [split_space]. rewrite Hc, (IH Ha). reflexivity.
Qed.

(** Splitting what [join(" ")] made of words without spaces gives the
    words back. *)
Lemma split_space_concat args :
  args ≠ [] → Forall (λ a, has_space a = false) args →
  split_space (String.concat " " args) = args.
Proof.
  induction args as [|a [|b args] IH]; intros Hne Hall; [done| |].
  - apply Forall_cons in Hall as [Ha _]. by apply split_space_word.
  - apply Forall_cons in Hall as [Ha Hall].
    change (String.concat " " (a :: b :: args))
      with (a +:+ " " +:+ String.concat " " (b :: args)).
    rewrite split_space_app by done. f_equal. by apply IH.
Qed.

Lemma stdout_write_printed s w : stdout_write s w = Done tt (printed [Raw s] w).
Proof. reflexivity. Qed.

Lemma onLine_exit_line (line : string) (args : list string) (w : World) :
  Forall (λ a, has_space a = false) args →
  trim line = String.concat " " args →
  args !! 0%nat = Some "exit" ∨ args !! 0%nat = Some "quit" →
  onLine line w = Done (Exited 0) (printed [Line "👋 Exiting todo app..."] w).
Proof.
  intros Hall Htrim Hcmd. unfold onLine.
  assert (Hne : args ≠ []) by (destruct Hcmd as [Hc|Hc]; by destruct args).
  rewrite Htrim, split_space_concat by done.
  destruct args as [|command rest]; [done|].
  change (default EmptyString ((command :: rest) !! 0%nat)) with command.
  change ((command :: rest) !! 0%nat) with (Some command) in Hcmd.
  destruct Hcmd as [[= ->] | [= ->]]; reflexivity.
Qed.

(** X8: a line that, once trimmed, is a recognised command with its words
    separated by single spaces is handled exactly as the same words on the
    command line, and then the prompt is shown again. *)
Theorem onLine_like_cli (line : string) (args : list string) (w : World) :
  args ≠ [] →
  Forall (λ a, has_space a = false) args →
  trim line = String.concat " " args →
  recognised args = true →
  onLine line w = (run cli args; run stdout_write "todo> "; ret Continue) w.
Proof.
  intros Hne Hall Htrim Hrec. unfold onLine.
  rewrite Htrim, split_space_concat by done.
  destruct args as [|command rest]; [done|].
  unfold recognised in Hrec.
  change (default EmptyString ((command :: rest) !! 0%nat)) with command in *.
  change ((command :: rest) !! 1%nat) with (rest !! 0%nat) in *.
  change (drop 2 (command :: rest)) with (drop 1 rest).
  unfold cli.
  destruct (String.eqb command "add" && truthy (rest !! 0%nat)) eqn:Hadd.
  { unfold bind, ret. destruct (addTask _ _ w); reflexivity. }
  destruct (String.eqb command "list") eqn:Hlist.
  { unfold bind, ret. destruct (listTasks w); reflexivity. }
  destruct (String.eqb command "remove" && truthy (rest !! 0%nat)) eqn:Hrm.
  { unfold bind, ret. destruct (removeTask _ w); reflexivity. }
  discriminate.
Qed.

(** X9: a line whose first word is [exit] or [quit] prints the farewell
    and ends the process with code 0; the prompt is not shown again and the
    file is neither read nor written.  Nothing that follows such a line is
    handled: a session with further lines behind it ends as the session
    that stops there. *)
Theorem onLine_exit (line : string) (args : list string) (w : World) :
  Forall (λ a, has_space a = false) args →
  trim line = String.concat " " args →
  args !! 0%nat = Some "exit" ∨ args !! 0%nat = Some "quit" →
  onLine line w = Done (Exited 0) (printed [Line "👋 Exiting todo app..."] w)
  ∧ ∀ before after w0,
      session (before ++ line :: after) w0 = session (before ++ [line]) w0.
Proof.
  intros Hall Htrim Hcmd. split; [by apply (onLine_exit_line line args)|].
  intros before after. induction before as [|l before IH]; intros w0;
    cbn [app session]; unfold bind.
  - rewrite (onLine_exit_line line args w0 Hall Htrim Hcmd). reflexivity.
  - destruct (onLine l w0) as [[|code] w1|e w1]; [apply IH | reflexivity | reflexivity].
Qed.

(** X10: a line that is no recognised command and does not begin with
    [exit] or [quit] leaves the file and the timers alone: for [help] it
    prints the five help lines, otherwise the unknown command message, and
    then the prompt.  This includes the empty line and [add] or [remove]
    without their argument. *)
Theorem onLine_other (line : string) (args : list string) (w : World) :
  args ≠ [] →
  Forall (λ a, has_space a = false) args →
  trim line = String.concat " " args →
  recognised args = false →
  args !! 0%nat ≠ Some "exit" →
  args !! 0%nat ≠ Some "quit" →
  onLine line w
  = Done Continue
      (printed
         (if bool_decide (args !! 0%nat = Some "help") then
            [Line "Commands:";
             Line "  add <task> [reminderTime]   Add a task with optional reminder";
             Line "  list                        List all tasks";
             Line "  remove <index>              Remove a task";
             Line "  exit                        Quit the app";
             Raw "todo> "]
          else [Line "Unknown command. Type 'help' for usage."; Raw "todo> "]) w).
Proof.
  intros Hne Hall Htrim Hrec Hexit Hquit. unfold onLine.
  rewrite Htrim, split_space_concat by done.
  destruct args as [|command rest]; [done|].
  unfold recognised in Hrec.
  change (default EmptyString ((command :: rest) !! 0%nat)) with command in *.
  change ((command :: rest) !! 1%nat) with (rest !! 0%nat) in *.
  change ((command :: rest) !! 0%nat) with (Some command) in *.
  apply orb_false_iff in Hrec as [Hrec Hrm].
  apply orb_false_iff in Hrec as [Hadd Hlist].
  rewrite Hadd, Hlist, Hrm.
  destruct (String.eqb_spec command "help") as [->|Hhelp].
  { rewrite bool_decide_eq_true_2 by done.
    unfold help, bind, ret.
    rewrite !console_log_printed, stdout_write_printed, !printed_printed. reflexivity. }
  rewrite bool_decide_eq_false_2 by congruence.
  destruct (String.eqb_spec command "exit") as [->|_]; [done|].
  destruct (String.eqb_spec command "quit") as [->|_]; [done|].
  cbn [orb]. unfold bind, ret.
  rewrite console_log_printed, stdout_write_printed, printed_printed. reflexivity.
Qed.

End Session.

(** ** What a run of commands keeps *)

Section Preservation.
Context `{Platform}.

Lemma exec_tasks c w tasks :
  readTasks w = Done tasks w →
  ∃ tasks',
    readTasks (world_of (exec c w)) = Done tasks' (world_of (exec c w))
    ∧ ∀ t, t ∈ tasks' → t ∈ tasks ∨ ∃ T r, c = Add T r ∧ text t = T.
Proof.
  intros Hr. destruct c as [T r|[i|]]; cbn [exec].
  - destruct (addTask_run T r w tasks Hr) as (rt & lines & w2 & _ & _ & ->).
    eexists. split; [by apply readTasks_saved|].
    intros t [Ht|Ht%list_elem_of_singleton]%elem_of_app; [by left|].
    right. exists T, r. by subst t.
  - destruct (decide (i < 1 ∨ Z.of_nat (length tasks) < i)) as [Hi|Hi].
    + rewrite (removeTask_out_of_range i w tasks Hr Hi).
      exists tasks. split; [by apply (readTasks_file w) | by left].
    + destruct (lookup_lt_is_Some_2 tasks (Z.to_nat (i - 1))) as [t Ht]; [lia|].
      rewrite (removeTask_in_range i w tasks t Hr) by (done || lia).
      eexists. split; [by apply readTasks_saved|].
      intros t' Ht'. left. eapply elem_of_sublist; [exact Ht' | apply sublist_delete].
  - destruct tasks as [|t tasks].
    + rewrite (removeTask_NaN_nil w Hr).
      exists []. split; [by apply readTasks_saved|]. intros t Ht. by apply elem_of_nil in Ht.
    + rewrite (removeTask_NaN_cons w t tasks Hr).
      exists tasks. split; [by apply readTasks_saved|]. intros t' Ht'. left. by right.
Qed.

(** X11: a run of add and remove commands neither invents nor alters
    tasks: started on a store that holds [tasks], it ends, normally or by a
    throw, with a file that decodes, and every task in it was in [tasks]
    or carries the text of one of the adds. *)
Theorem commands_keep_tasks (cs : list Command) (w : World) (tasks : list Task) :
  readTasks w = Done tasks w →
  ∃ tasks',
    readTasks (world_of (exec_all cs w)) = Done tasks' (world_of (exec_all cs w))
    ∧ ∀ t, t ∈ tasks' → t ∈ tasks ∨ ∃ T r, Add T r ∈ cs ∧ text t = T.
Proof.
  revert w tasks. induction cs as [|c cs IH]; intros w tasks Hr.
  { exists tasks. split; [done | by left]. }
  destruct (exec_tasks c w tasks Hr) as (tasks1 & Hr1 & Hin1).
  assert (Hstep : ∀ t, t ∈ tasks1 → t ∈ tasks ∨ ∃ T r, Add T r ∈ c :: cs ∧ text t = T).
  { intros t Ht. destruct (Hin1 t Ht) as [?|(T & r & -> & ?)]; [by left|].
    right. exists T, r. split; [by left | done]. }
  cbn [exec_all]. unfold bind.
  destruct (exec c w) as [[] w1|e w1]; cbn [world_of] in *.
  - destruct (IH w1 tasks1 Hr1) as (tasks' & Hr' & Hin').
    exists tasks'. split; [done|]. intros t Ht.
    destruct (Hin' t Ht) as [Ht1|(T & r & Hc & Htx)]; [by apply Hstep|].
    right. exists T, r. split; [by right | done].
  - exists tasks1. split; [done | exact Hstep].
Qed.
End Preservation.

(** ** What no command does *)

Section Frame.
Context `{Platform}.

Lemma grows_refl w : grows w w.
Proof. by split_and!. Qed.

Lemma grows_trans w1 w2 w3 : grows w1 w2 → grows w2 w3 → grows w1 w3.
Proof.
  intros (Ho & Ht & Hn) (Ho' & Ht' & Hn'). split_and!; [by etrans | by etrans | congruence].
Qed.

Lemma grows_printed lines w : grows w (printed lines w).
Proof. split_and!; [by apply prefix_app_r | done | done]. Qed.

Lemma grows_written data w : grows w (written data w).
Proof. by split_and!. Qed.

Lemma grows_scheduled ts w : grows w (scheduled ts w).
Proof. split_and!; [done | by apply prefix_app_r | done]. Qed.

Lemma addTask_grows T r w : grows w (world_of (addTask T r w)).
Proof.
  destruct (readTasks_cases w) as [[tasks Hr]|Hr].
  - destruct (addTask_run T r w tasks Hr) as (rt & lines & w2 & _ & Hs & ->).
    cbn [world_of].
    assert (Hw2 : grows w w2).
    { destruct (truthy rt).
      - rewrite scheduleReminder_in_future in Hs. apply Done_inj in Hs as [_ <-].
        eapply grows_trans; [apply grows_printed|].
        destruct (in_future _ _); [apply grows_scheduled | apply grows_refl].
      - apply Done_inj in Hs as [_ <-]. apply grows_printed. }
    eapply grows_trans; [exact Hw2|].
    eapply grows_trans; [apply grows_written | apply grows_printed].
  - unfold addTask, bind. rewrite Hr. apply grows_refl.
Qed.

Lemma listTasks_grows w : grows w (world_of (listTasks w)).
Proof.
  destruct (readTasks_cases w) as [[tasks Hr]|Hr].
  - rewrite (listTasks_listing w tasks Hr). apply grows_printed.
  - unfold listTasks, bind. rewrite Hr. apply grows_refl.
Qed.

Lemma removeTask_grows index w : grows w (world_of (removeTask index w)).
Proof.
  destruct (readTasks_cases w) as [[tasks Hr]|Hr].
  - destruct index as [i|].
    + destruct (decide (i < 1 ∨ Z.of_nat (length tasks) < i)) as [Hi|Hi].
      { rewrite (removeTask_out_of_range i w tasks Hr Hi). apply grows_printed. }
      destruct (lookup_lt_is_Some_2 tasks (Z.to_nat (i - 1))) as [t Ht]; [lia|].
      rewrite (removeTask_in_range i w tasks t Hr) by (done || lia).
      eapply grows_trans; [apply grows_written | apply grows_printed].
    + destruct tasks as [|t tasks].
      { rewrite (removeTask_NaN_nil w Hr). apply grows_written. }
      rewrite (removeTask_NaN_cons w t tasks Hr).
      eapply grows_trans; [apply grows_written | apply grows_printed].
  - unfold removeTask, bind. rewrite Hr. apply grows_refl.
Qed.

Lemma bind_grows {A B} (m : M A) (k : A → M B) w :
  grows w (world_of (m w)) →
  (∀ a w', grows w' (world_of (k a w'))) →
  grows w (world_of (bind m k w)).
Proof.
  intros Hm Hk. unfold bind. destruct (m w) as [a w1|e w1]; cbn [world_of] in *; [|done].
  eapply grows_trans; [exact Hm | apply Hk].
Qed.

Lemma console_log_grows s w : grows w (world_of (console_log s w)).
Proof. apply grows_printed. Qed.

Lemma stdout_write_grows s w : grows w (world_of (stdout_write s w)).
Proof. apply (grows_printed [Raw s]). Qed.

Lemma ret_grows {A} (a : A) w : grows w (world_of (ret a w)).
Proof. apply grows_refl. Qed.

Lemma help_grows w : grows w (world_of (help w)).
Proof.
  unfold help. repeat (apply bind_grows; [apply console_log_grows | intros ? ?]).
  apply console_log_grows.
Qed.

Lemma onLine_grows line w : grows w (world_of (onLine line w)).
Proof.
  unfold onLine. cbv zeta. apply bind_grows.
  - repeat case_match;
      (apply bind_grows; [|intros ? ?; apply ret_grows]);
      first [apply addTask_grows | apply listTasks_grows | apply removeTask_grows
            | apply help_grows | apply console_log_grows].
  - intros [|code] w'; [|apply ret_grows].
    apply bind_grows; [apply stdout_write_grows | intros; apply ret_grows].
Qed.

(** X12: no command touches reminders that are pending: through a whole
    interactive session, however it ends, output is only appended, timers
    are only added, never cancelled, and no notification is requested.  A
    notification comes only from the callback of a timer, which requests
    exactly one, with the text of its task as the message, and leaves the
    file and the timers alone. *)
Theorem session_grows (lines : list string) (w : World) :
  grows w (world_of (session lines w))
  ∧ ∀ task,
      ∃ w', reminderCallback task w = Done tt w'
            ∧ notifications w'
              = notifications w ++ [mkNotification "Todo Reminder" (text task) true false]
            ∧ file w' = file w
            ∧ timers w' = timers w.
Proof.
  split.
  - revert w. induction lines as [|l lines IH]; intros w; [apply grows_refl|].
    cbn [session]. apply bind_grows; [apply onLine_grows|].
    intros [|code] w'; [apply IH | apply ret_grows].
  - intros task. eexists. split; [reflexivity|]. done.
Qed.
End Frame.

(** ** The earlier variant *)

Section LegacyCodec.
Local Arguments String.append : simpl nomatch.

Lemma legacy_parse_elements_shorter fuel : ∀ s ts r,
  Legacy.parse_elements fuel s = Some (ts, r) → (String.length r < String.length s)%nat.
Proof.
  induction fuel as [|fuel IH]; intros s ts r; [discriminate|].
  cbn [Legacy.parse_elements]. pose proof (skip_ws_length s) as Hs.
  destruct (parse_string (skip_ws s)) as [[t s1]|] eqn:E; [|discriminate].
  apply parse_string_shorter in E. cbn [mbind option_bind].
  pose proof (skip_ws_length s1) as Hs1.
  destruct (skip_ws s1) as [|c r1]; [discriminate|]. simpl in Hs1.
  destruct (Ascii.eqb c ",").
  - destruct (Legacy.parse_elements fuel r1) as [[ts' s2]|] eqn:E2; [|discriminate].
    apply IH in E2. cbn [mbind option_bind]. intros [= _ <-]. lia.
  - destruct (Ascii.eqb c "]"); [|discriminate]. intros [= _ <-]. lia.
Qed.

Lemma legacy_parse_elements_fuel fuel : ∀ fuel' s,
  (String.length s < fuel)%nat → (String.length s < fuel')%nat →
  Legacy.parse_elements fuel s = Legacy.parse_elements fuel' s.
Proof.
  induction fuel as [|fuel IH]; intros fuel' s Hf Hf'; [lia|].
  destruct fuel' as [|fuel']; [lia|]. cbn [Legacy.parse_elements].
  pose proof (skip_ws_length s) as Hs.
  destruct (parse_string (skip_ws s)) as [[t s1]|] eqn:E; [|reflexivity].
  apply parse_string_shorter in E. cbn [mbind option_bind].
  pose proof (skip_ws_length s1) as Hs1.
  destruct (skip_ws s1) as [|c r]; [reflexivity|]. simpl in Hs1.
  destruct (Ascii.eqb c ","); [|reflexivity].
  rewrite (IH fuel') by lia. reflexivity.
Qed.

Lemma legacy_JSON_parse_fuel_enough fuel s :
  (String.length s ≤ fuel)%nat → Legacy.JSON_parse_fuel fuel s = Legacy.JSON_parse s.
Proof.
  intros Hf. unfold Legacy.JSON_parse, Legacy.JSON_parse_fuel.
  destruct (expect "[" s) as [s1|] eqn:E; [|reflexivity].
  apply expect_shorter in E. cbn [mbind option_bind].
  destruct (skip_ws s1) as [|c r]; [reflexivity|].
  destruct (Ascii.eqb c "]"); [reflexivity|].
  rewrite (legacy_parse_elements_fuel fuel (String.length s)) by lia. reflexivity.
Qed.

Lemma legacy_parse_elements_JSON_elements ts : ∀ t fuel rest,
  (length ts < fuel)%nat →
  Legacy.parse_elements fuel
    (str NEWLINE +:+ Legacy.JSON_elements t ts +:+ str NEWLINE +:+ "]" +:+ rest)
  = Some (t :: ts, rest).
Proof.
  induction ts as [|t' ts IH]; intros t fuel rest Hfuel;
    destruct fuel as [|fuel]; try (simpl in Hfuel; lia);
    cbn [Legacy.parse_elements Legacy.JSON_elements]; rewrite ?app_assoc_s;
    change (skip_ws (str NEWLINE +:+ "  " +:+ JSON_string t +:+ ?x))
      with (JSON_string t +:+ x);
    rewrite parse_string_JSON_string; cbn [mbind option_bind].
  - reflexivity.
  - change (skip_ws ("," +:+ ?x)) with (String ","%char x).
    cbn [Ascii.eqb Bool.eqb].
    rewrite IH by (simpl in Hfuel; lia). reflexivity.
Qed.

Lemma legacy_length_JSON_elements t ts :
  (length ts < String.length (Legacy.JSON_elements t ts))%nat.
Proof.
  revert t. induction ts as [|t' ts IH]; intros t; cbn [Legacy.JSON_elements].
  - rewrite length_app_s. simpl. lia.
  - rewrite !length_app_s. specialize (IH t'). simpl. lia.
Qed.

Lemma legacy_JSON_parse_stringify tasks :
  Legacy.JSON_parse (Legacy.JSON_stringify tasks) = Some tasks.
Proof.
  destruct tasks as [|t ts]; [reflexivity|].
  unfold Legacy.JSON_parse, Legacy.JSON_parse_fuel.
  pose proof (legacy_length_JSON_elements t ts) as Hlen.
  assert (Hfuel : (length ts < String.length (Legacy.JSON_stringify (t :: ts)))%nat).
  { unfold Legacy.JSON_stringify. rewrite !length_app_s. simpl. lia. }
  revert Hfuel. generalize (String.length (Legacy.JSON_stringify (t :: ts))) as n.
  intros n Hfuel. unfold Legacy.JSON_stringify. rewrite ?app_assoc_s.
  change (expect "[" ("[" +:+ ?x)) with (Some x). cbn [mbind option_bind].
  assert (Hx : ∃ x, Legacy.JSON_elements t ts = String " " (String " " (String QUOTE x))).
  { destruct ts; unfold Legacy.JSON_elements, JSON_string; rewrite ?app_assoc_s; eauto. }
  destruct Hx as [x Hx]. rewrite Hx at 1.
  change (skip_ws (str NEWLINE +:+ String " " (String " " (String QUOTE x))
                   +:+ str NEWLINE +:+ "]"))
    with (String QUOTE (x +:+ str NEWLINE +:+ "]")).
  change (Ascii.eqb QUOTE "]") with false. cbv iota.
  replace (Legacy.parse_elements n _) with (Some (t :: ts, EmptyString)); [reflexivity|].
  symmetry.
  change (str NEWLINE +:+ "]") with (str NEWLINE +:+ "]" +:+ EmptyString).
  by apply legacy_parse_elements_JSON_elements.
Qed.
End LegacyCodec.

Section LegacyProgram.

Lemma legacy_readTasks_saved w tasks :
  file w = Some (Legacy.JSON_stringify tasks) → Legacy.readTasks w = Done tasks w.
Proof.
  intros Hf.
  unfold Legacy.readTasks, bind, existsSync, readFileSync, Legacy.JSON_parse_tasks.
  destruct (file w) as [data|] eqn:Hd; [|discriminate]. injection Hf as ->.
  simpl. rewrite ?Hd. rewrite legacy_JSON_parse_stringify. reflexivity.
Qed.

Lemma forEach_from_lines {A} (f : A → nat → string) (l : list A) : ∀ i w,
  forEach_from i (λ x index, console_log (f x index)) l w
  = Done tt (printed (imap (λ k x, Line (f x (i + k)%nat)) l) w).
Proof.
  induction l as [|x l IH]; intros i w; cbn [forEach_from].
  - unfold ret. by rewrite printed_nil.
  - unfold bind. rewrite console_log_printed, IH, printed_printed.
    rewrite imap_cons. cbn [app]. rewrite Nat.add_0_r.
    do 3 f_equal. apply imap_ext. intros k y _. simpl. f_equal. f_equal. lia.
Qed.

Lemma legacy_listTasks_listing w tasks :
  Legacy.readTasks w = Done tasks w →
  Legacy.listTasks w = Done tt (printed (Legacy.listing tasks) w).
Proof.
  intros Hr. unfold Legacy.listTasks, bind. rewrite Hr.
  destruct tasks as [|t tasks]; [reflexivity|].
  cbn [length Nat.eqb]. rewrite console_log_printed.
  unfold forEach. rewrite forEach_from_lines, printed_printed. reflexivity.
Qed.

(** X13 (earlier variant): on a store that holds [tasks], [addTask T]
    saves [tasks] followed by [T] and prints the confirmation; reading the
    file back gives exactly that list, and [listTasks] then prints a header
    and one line per task, the last being the number [length tasks + 1], a
    dot and [T]. *)
Theorem legacy_add_then_list (w : World) (tasks : list string) (T : string) :
  Legacy.readTasks w = Done tasks w →
  ∃ w1 shown,
    Legacy.addTask T w = Done tt w1
    ∧ file w1 = Some (Legacy.JSON_stringify (tasks ++ [T]))
    ∧ Legacy.readTasks w1 = Done (tasks ++ [T]) w1
    ∧ stdout w1 = stdout w ++ [Line ("Task " +:+ quoted T +:+ " added!")]
    ∧ Legacy.listTasks w1 = Done tt (printed shown w1)
    ∧ length shown = S (length tasks + 1)
    ∧ last shown = Some (Line (pretty (length tasks + 1)%nat +:+ ". " +:+ T)).
Proof.
  intros Hr.
  assert (Ha : Legacy.addTask T w
               = Done tt (printed [Line ("Task " +:+ quoted T +:+ " added!")]
                            (written (Legacy.JSON_stringify (tasks ++ [T])) w))).
  { unfold Legacy.addTask, bind. rewrite Hr. reflexivity. }
  eexists _, (Legacy.listing (tasks ++ [T])). split; [exact Ha|].
  split_and!; [done | by apply legacy_readTasks_saved | done
              | by apply legacy_listTasks_listing, legacy_readTasks_saved | |].
  - unfold Legacy.listing. destruct (tasks ++ [T]) as [|x l] eqn:Hl; [by destruct tasks|].
    rewrite <- Hl. cbn [length]. rewrite length_imap, length_app. simpl. lia.
  - unfold Legacy.listing. destruct (tasks ++ [T]) as [|x l] eqn:Hl; [by destruct tasks|].
    rewrite <- Hl. rewrite imap_app. cbn [imap]. rewrite Nat.add_0_r.
    rewrite app_comm_cons. apply last_snoc.
Qed.




End LegacyProgram.

(** ** Runs of the further properties *)

Lemma reschedule_sets_future_timers_witness :
  ∃ new,
    rescheduleAllReminders (H := Sample.platform) (Sample.with_tasks Cases.dated)
    = Done tt (scheduled new (Sample.with_tasks Cases.dated))
    ∧ subject <$> new
      = filter (λ task, in_future (H := Sample.platform)
                          (clock (Sample.with_tasks Cases.dated)) task = true)
          Cases.dated
    ∧ Forall (λ tm, ∃ t, due (H := Sample.platform) (subject tm) = Num t
                         ∧ 0 < t - clock (Sample.with_tasks Cases.dated)
                         ∧ delay tm
                           = if t - clock (Sample.with_tasks Cases.dated) <=? 2147483647
                             then t - clock (Sample.with_tasks Cases.dated) else 1) new
    ∧ ∀ args, main (H := Sample.platform) args (Sample.with_tasks Cases.dated)
              = cli (H := Sample.platform) args
                  (scheduled new (Sample.with_tasks Cases.dated)).
Proof.
  apply (reschedule_sets_future_timers (H := Sample.platform)
           (Sample.with_tasks Cases.dated) Cases.dated).
  vm_compute. reflexivity.
Defined.

(** A reminder 52 days ahead: the time left is 4514400000 ms, more than a
    timer can be armed with, so the timer is armed with 1 ms. *)
Lemma add_future_reminder_witness :
  ∃ w1,
    addTask (H := Sample.platform) "Xmas" (Some "2026-12-24T18:00:00.000Z") Sample.fresh
    = Done tt w1
    ∧ readTasks w1 = Done ([] ++ [mkTask "Xmas" (Some "2026-12-24T18:00:00.000Z")]) w1
    ∧ timers w1
      = timers Sample.fresh
        ++ [mkTimer (if 1798135200000 - clock Sample.fresh <=? 2147483647
                     then 1798135200000 - clock Sample.fresh else 1)
              (mkTask "Xmas" (Some "2026-12-24T18:00:00.000Z"))]
    ∧ stdout w1
      = stdout Sample.fresh
        ++ [Line ("✅ Task " +:+ quoted "Xmas" +:+ " added!");
            Line ("⏰ Reminder set for "
                  +:+ toLocaleString (Platform := Sample.platform) (Num 1798135200000))]
    ∧ notifications w1 = notifications Sample.fresh.
Proof.
  apply (add_future_reminder (H := Sample.platform) Sample.fresh [] "Xmas"
           "2026-12-24T18:00:00.000Z" "2026-12-24T18:00:00.000Z" 1798135200000).
  - reflexivity.
  - vm_compute. reflexivity.
  - reflexivity.
  - vm_compute. reflexivity.
  - simpl. lia.
Defined.



Lemma only_remove_NaN_on_empty_throws_witness :
  (Remove NaN = Remove NaN ∧ @nil Task = []
   ∧ exec (H := Sample.platform) (Remove NaN) Sample.fresh
     = Thrown TypeError (written (JSON_stringify []) Sample.fresh))
  ∨ (¬ (Remove NaN = Remove NaN ∧ @nil Task = [])
     ∧ ∃ w', exec (H := Sample.platform) (Remove NaN) Sample.fresh = Done tt w').
Proof.
  apply (only_remove_NaN_on_empty_throws (H := Sample.platform) (Remove NaN) Sample.fresh []).
  reflexivity.
Defined.

Lemma main_usage_witness :
  ∃ new,
    main (H := Sample.platform) ["add"] (Sample.with_tasks Cases.dated)
    = Done tt
        (printed
           [Line "Usage:";
            Line "  npx ts-node src/todo.ts add <task> [reminderTime]";
            Line "  npx ts-node src/todo.ts list";
            Line "  npx ts-node src/todo.ts remove <index>";
            Line "  npx ts-node src/todo.ts            # interactive mode"]
           (scheduled new (Sample.with_tasks Cases.dated)))
    ∧ subject <$> new
      = filter (λ task, in_future (H := Sample.platform)
                          (clock (Sample.with_tasks Cases.dated)) task = true)
          Cases.dated.
Proof.
  apply (main_usage (H := Sample.platform) ["add"] (Sample.with_tasks Cases.dated)
           Cases.dated).
  - vm_compute. reflexivity.
  - discriminate.
  - reflexivity.
Defined.

Lemma main_blank_file_witness :
  main (H := Sample.platform) ["list"] Cases.blank = Thrown SyntaxError Cases.blank.
Proof.
  apply (main_blank_file (H := Sample.platform) ["list"] Cases.blank " "); reflexivity.
Defined.

Lemma onLine_like_cli_witness :
  onLine (H := Sample.platform) "  add Buy tomorrow " Sample.fresh
  = (run cli (H := Sample.platform) ["add"; "Buy"; "tomorrow"];
     run stdout_write "todo> "; ret Continue) Sample.fresh.
Proof.
  apply (onLine_like_cli (H := Sample.platform) "  add Buy tomorrow "
           ["add"; "Buy"; "tomorrow"] Sample.fresh).
  - discriminate.
  - repeat constructor.
  - reflexivity.
  - reflexivity.
Defined.

Lemma onLine_exit_witness :
  onLine (H := Sample.platform) " quit now" Sample.fresh
  = Done (Exited 0) (printed [Line "👋 Exiting todo app..."] Sample.fresh)
  ∧ ∀ before after w0,
      session (H := Sample.platform) (before ++ " quit now" :: after) w0
      = session (H := Sample.platform) (before ++ [" quit now"]) w0.
Proof.
  apply (onLine_exit (H := Sample.platform) " quit now" ["quit"; "now"] Sample.fresh).
  - repeat constructor.
  - reflexivity.
  - right. reflexivity.
Defined.

Lemma onLine_other_witness :
  onLine (H := Sample.platform) "remove" Sample.fresh
  = Done Continue
      (printed
         (if bool_decide (["remove"] !! 0%nat = Some "help") then
            [Line "Commands:";
             Line "  add <task> [reminderTime]   Add a task with optional reminder";
             Line "  list                        List all tasks";
             Line "  remove <index>              Remove a task";
             Line "  exit                        Quit the app";
             Raw "todo> "]
          else [Line "Unknown command. Type 'help' for usage."; Raw "todo> "])
         Sample.fresh).
Proof.
  apply (onLine_other (H := Sample.platform) "remove" ["remove"] Sample.fresh).
  - discriminate.
  - repeat constructor.
  - reflexivity.
  - reflexivity.
  - discriminate.
  - discriminate.
Defined.

Lemma commands_keep_tasks_witness :
  ∃ tasks',
    readTasks (world_of (exec_all (H := Sample.platform)
                           [Add "Feed cat" None; Remove (Num 1)]
                           (Sample.with_tasks Sample.two)))
    = Done tasks' (world_of (exec_all (H := Sample.platform)
                               [Add "Feed cat" None; Remove (Num 1)]
                               (Sample.with_tasks Sample.two)))
    ∧ ∀ t, t ∈ tasks' →
        t ∈ Sample.two
        ∨ ∃ T r, Add T r ∈ [Add "Feed cat" None; Remove (Num 1)] ∧ text t = T.
Proof.
  apply (commands_keep_tasks (H := Sample.platform) [Add "Feed cat" None; Remove (Num 1)]
           (Sample.with_tasks Sample.two) Sample.two).
  reflexivity.
Defined.

Lemma legacy_add_then_list_witness :
  ∃ w1 shown,
    Legacy.addTask "Buy milk" (Cases.legacy_store ["Call mom"]) = Done tt w1
    ∧ file w1 = Some (Legacy.JSON_stringify (["Call mom"] ++ ["Buy milk"]))
    ∧ Legacy.readTasks w1 = Done (["Call mom"] ++ ["Buy milk"]) w1
    ∧ stdout w1 = stdout (Cases.legacy_store ["Call mom"])
                  ++ [Line ("Task " +:+ quoted "Buy milk" +:+ " added!")]
    ∧ Legacy.listTasks w1 = Done tt (printed shown w1)
    ∧ length shown = 3%nat
    ∧ last shown = Some (Line (pretty 2%nat +:+ ". " +:+ "Buy milk")).
Proof.
  apply (legacy_add_then_list (Cases.legacy_store ["Call mom"]) ["Call mom"] "Buy milk").
  reflexivity.
Defined.



